(** * rutaVerde: the waste-collection decision core

    A shallow embedding of [agents2.py] (containers, trucks, environment,
    persistence and reports) and of the snapshot, status and history
    functions of [api_server.py].

    Numeric model.  Python integers are unbounded and are embedded as [Z].
    The quantities the program computes in binary64 (the thresholds
    [0.9 * capacity], [0.7 * capacity], [capacity * 0.8], the exploration
    rate, the learning rate, the discount factor and the table values) are
    embedded as exact rationals [Qc]: a decimal literal stands for the
    rational it denotes, and the comparison of an integer with such a product
    is the exact one, as Python's mixed int/float comparison is.  The
    section on binary64 at the end evaluates the three threshold tests on
    the kernel's floating-point numbers and checks that they agree with the
    rational ones for every capacity up to 400.

    Randomness is an explicit input: every function that draws from [random]
    takes the drawn values as arguments. *)

From Stdlib Require Import ZArith QArith Qcanon Lia List String.
From Corelib Require Import PrimInt63 PrimFloat.
From stdpp Require Import base option list gmap.
Import ListNotations.

#[local] Open Scope Z_scope.
#[local] Set Warnings "-inexact-float".

(** ** Numbers *)

(** A decimal literal [n/d], e.g. [0.9] is [decimal 9 10]. *)
Definition decimal (n : Z) (d : positive) : Qc := Q2Qc (n # d).

(** An integer used where Python promotes it to a float. *)
Definition of_int (z : Z) : Qc := Q2Qc (inject_Z z).

(** [x <= y] and [x < y] on the rationals, as booleans. *)
Definition Qc_leb (x y : Qc) : bool := Qle_bool x y.
Definition Qc_ltb (x y : Qc) : bool := negb (Qle_bool y x).

(** Python's two-argument [max] on numbers: [max(a, b)] returns [b] only
    when [b > a]. *)
Definition Qc_max (a b : Qc) : Qc := if Qc_ltb a b then b else a.

(** ** Grid positions *)

Definition pos : Type := Z * Z.

Definition pos_eqb (p q : pos) : bool :=
  (fst p =? fst q) && (snd p =? snd q).

(** [abs(x - p[0]) + abs(y - p[1])] *)
Definition manhattan (a b : pos) : Z :=
  Z.abs (fst a - fst b) + Z.abs (snd a - snd b).

(** ** TrashContainerAgent *)

Record TrashContainerAgent : Type := mkContainer {
  c_position : pos;
  c_capacity : Z;
  current_fill : Z;
  generation_rate : Z
}.

Definition set_fill (c : TrashContainerAgent) (f : Z) : TrashContainerAgent :=
  {| c_position := c_position c; c_capacity := c_capacity c;
     current_fill := f; generation_rate := generation_rate c |}.

(** [TrashContainerAgent.step].  [u] is the value of [random.uniform(0, 1)]
    and [g] the value [random.randint] returns when it is called. *)
Definition container_step (population_density : Qc) (u : Qc) (g : Z)
    (c : TrashContainerAgent) : TrashContainerAgent :=
  if Qc_ltb u population_density then
    let basura_generada := g in
    set_fill c (Z.min (current_fill c + basura_generada) (c_capacity c * 2))
  else c.

(** The range [random.randint] draws from in [step]. *)
Definition valid_generation (population_density : Qc) (g : Z) : Prop :=
  if Qc_leb (decimal 3 10) population_density then 2 <= g <= 5 else 1 <= g <= 3.

(** [TrashContainerAgent.collect_trash]: the amount collected and the
    container afterwards. *)
Definition collect_trash (c : TrashContainerAgent) (amount : Z)
    : Z * TrashContainerAgent :=
  let collected := Z.min (current_fill c) amount in
  (collected, set_fill c (current_fill c - collected)).

(** [current_fill >= 0.9 * capacity] *)
Definition is_critical (c : TrashContainerAgent) : bool :=
  Qc_leb (decimal 9 10 * of_int (c_capacity c)) (of_int (current_fill c)).

(** [current_fill >= capacity] *)
Definition is_overflowing (c : TrashContainerAgent) : bool :=
  c_capacity c <=? current_fill c.

(** ** api_server.get_container_status *)

Inductive container_status : Type :=
  | overflowing | critical | medium | normal.

Definition get_container_status (c : TrashContainerAgent) : container_status :=
  if is_overflowing c then overflowing
  else if is_critical c then critical
  else if Qc_leb (decimal 7 10 * of_int (c_capacity c)) (of_int (current_fill c))
       then medium
  else normal.

(** ** Python builtins used by the trucks *)

(** [min(x :: l, key=key)]: the first element of least key. *)
Definition min_key {A : Type} (key : A -> Z) (x : A) (l : list A) : A :=
  fold_left (fun best y => if key y <? key best then y else best) l x.

(** [min(...)] over a non-empty sequence of integers. *)
Definition min_of (x : Z) (l : list Z) : Z := fold_left Z.min l x.

(** [max(...)] over a sequence of numbers; [None] is the [ValueError] of the
    empty sequence. *)
Definition max_of (l : list Qc) : option Qc :=
  match l with
  | [] => None
  | x :: l' => Some (fold_left Qc_max l' x)
  end.

(** ** TrashTruckAgent *)

Inductive action : Type :=
  | Up | Down | Left | Right | Collect | ChangeRoute.

#[global] Instance action_eq_dec : EqDecision action.
Proof. solve_decision. Defined.

Definition possible_actions : list action :=
  [Up; Down; Left; Right; Collect; ChangeRoute].

(** The key of the value table: [(position, load)]. *)
Definition qstate : Type := pos * Z.

(** A Python dict from actions to numbers, in insertion order. *)
Abbreviation action_values := (list (action * Qc)).

Fixpoint dict_get (d : action_values) (a : action) : option Qc :=
  match d with
  | [] => None
  | (k, v) :: d' => if decide (k = a) then Some v else dict_get d' a
  end.

(** [d[a] = v]: overwrite in place, or append a new key. *)
Fixpoint dict_set (d : action_values) (a : action) (v : Qc) : action_values :=
  match d with
  | [] => [(a, v)]
  | (k, w) :: d' =>
      if decide (k = a) then (k, v) :: d' else (k, w) :: dict_set d' a v
  end.

(** [max(d, key=d.get, default=dflt)]: the first key of greatest value. *)
Definition max_key (d : action_values) (dflt : action) : action :=
  match d with
  | [] => dflt
  | kv :: d' =>
      fst (fold_left
             (fun best kv' => if Qc_ltb (snd best) (snd kv') then kv' else best)
             d' kv)
  end.

Record TrashTruckAgent : Type := mkTruck {
  capacity : Z;
  load : Z;
  position : pos;
  q_table : gmap qstate action_values;
  epsilon : Qc;
  alpha : Qc;
  gamma : Qc;
  truck_id : Z
}.

Definition set_load (t : TrashTruckAgent) (l : Z) : TrashTruckAgent :=
  {| capacity := capacity t; load := l; position := position t;
     q_table := q_table t; epsilon := epsilon t; alpha := alpha t;
     gamma := gamma t; truck_id := truck_id t |}.

Definition set_position (t : TrashTruckAgent) (p : pos) : TrashTruckAgent :=
  {| capacity := capacity t; load := load t; position := p;
     q_table := q_table t; epsilon := epsilon t; alpha := alpha t;
     gamma := gamma t; truck_id := truck_id t |}.

Definition set_q_table (t : TrashTruckAgent)
    (q : gmap qstate action_values) : TrashTruckAgent :=
  {| capacity := capacity t; load := load t; position := position t;
     q_table := q; epsilon := epsilon t; alpha := alpha t;
     gamma := gamma t; truck_id := truck_id t |}.

Definition set_epsilon (t : TrashTruckAgent) (e : Qc) : TrashTruckAgent :=
  {| capacity := capacity t; load := load t; position := position t;
     q_table := q_table t; epsilon := e; alpha := alpha t;
     gamma := gamma t; truck_id := truck_id t |}.

Definition set_truck_id (t : TrashTruckAgent) (i : Z) : TrashTruckAgent :=
  {| capacity := capacity t; load := load t; position := position t;
     q_table := q_table t; epsilon := epsilon t; alpha := alpha t;
     gamma := gamma t; truck_id := i |}.

(** [TrashTruckAgent.state] *)
Definition state (t : TrashTruckAgent) : qstate := (position t, load t).

(** *** Persistence

    The files [q_table_truck_<id>.pkl], keyed by the identity.  [Corrupt] is a
    file on which [pickle.load] or the access to ['q_table'] raises;
    [Pickled q eps runs] is a pickled dict with the key ['q_table'] and, when
    present, the keys ['epsilon'] and ['training_runs']. *)

Inductive file : Type :=
  | Corrupt
  | Pickled (q : gmap qstate action_values) (eps : option Qc) (runs : option Z).

Definition load_q_table (fs : gmap Z file) (t : TrashTruckAgent)
    : TrashTruckAgent :=
  match fs !! truck_id t with
  | Some (Pickled q eps _) =>
      set_epsilon (set_q_table t q)
        (Qc_max (decimal 2 10) (default (epsilon t) eps * decimal 98 100)%Qc)
  | Some Corrupt => t
  | None => t
  end.

Definition save_q_table (fs : gmap Z file) (t : TrashTruckAgent)
    : gmap Z file :=
  match fs !! truck_id t with
  | Some Corrupt => fs
  | Some (Pickled _ _ runs) =>
      <[truck_id t := Pickled (q_table t) (Some (epsilon t))
                              (Some (default 0 runs + 1))]> fs
  | None =>
      <[truck_id t := Pickled (q_table t) (Some (epsilon t)) (Some 1)]> fs
  end.

(** *** Queries of the environment the trucks use

    The environment's containers are the shared store [m]; a container object
    is referred to by its index in [m]. *)

Fixpoint find_container (m : list TrashContainerAgent) (p : pos) (i : nat)
    : option (nat * TrashContainerAgent) :=
  match m with
  | [] => None
  | c :: m' =>
      if pos_eqb (c_position c) p then Some (i, c)
      else find_container m' p (S i)
  end.

(** [GarbageEnvironment.get_container_at_position]: the first container at
    the position, with its index in the store. *)
Definition get_container_at_position (m : list TrashContainerAgent) (p : pos)
    : option (nat * TrashContainerAgent) :=
  find_container m p 0%nat.

Definition get_critical_containers (m : list TrashContainerAgent) : list pos :=
  map c_position (List.filter is_critical m).

Definition get_overflowing_containers (m : list TrashContainerAgent)
    : list pos :=
  map c_position (List.filter is_overflowing m).

(** *** Decision *)

Definition dump_points : list pos := [(0, 0); (7, 0); (0, 7); (7, 7)].

(** The heading towards a target; [None] when already there. *)
Definition heading (p target : pos) : option action :=
  let '(x, y) := p in
  let '(target_x, target_y) := target in
  if x <? target_x then Some Right
  else if target_x <? x then Some Left
  else if y <? target_y then Some Up
  else if target_y <? y then Some Down
  else None.

(** [move_to_dump]: the nearest of [dump_points] (its head and its tail are
    the arguments of [min_key]); at a dump point the truck is unloaded on
    the spot. *)
Definition move_to_dump (t : TrashTruckAgent) : action * TrashTruckAgent :=
  let closest_dump :=
    min_key (manhattan (position t)) (0, 0) [(7, 0); (0, 7); (7, 7)] in
  match heading (position t) closest_dump with
  | Some a => (a, t)
  | None => (Collect, set_load t 0)
  end.

(** [move_to_critical], on the non-empty list [c :: cs]. *)
Definition move_to_critical (t : TrashTruckAgent) (c : pos) (cs : list pos)
    : action :=
  let closest_critical := min_key (manhattan (position t)) c cs in
  match heading (position t) closest_critical with
  | Some a => a
  | None => Collect
  end.

(** [choose_action].  [u] is the value of [random.uniform(0, 1)] and [rc] the
    action [random.choice] returns; the truck is returned because
    [move_to_dump] may unload it. *)
Definition choose_action (m : list TrashContainerAgent) (t : TrashTruckAgent)
    (st : qstate) (u : Qc) (rc : action) : action * TrashTruckAgent :=
  let container_at_position := get_container_at_position m (position t) in
  if match container_at_position with
     | Some (_, c) => (0 <? current_fill c) && (load t <? capacity t)
     | None => false
     end
  then (Collect, t)
  else if Qc_leb (of_int (capacity t) * decimal 8 10) (of_int (load t))
  then move_to_dump t
  else
    match get_critical_containers m with
    | c :: cs => (move_to_critical t c cs, t)
    | [] =>
        if Qc_ltb u (epsilon t) then (rc, t)
        else (max_key (default [] (q_table t !! st)) rc, t)
    end.

(** *** Value update *)

Definition zero_values : action_values :=
  map (fun a => (a, Q2Qc 0)) possible_actions.

(** [if s not in self.q_table: self.q_table[s] = {a: 0 ...}] *)
Definition init_state (s : qstate) (q : gmap qstate action_values)
    : gmap qstate action_values :=
  match q !! s with
  | Some _ => q
  | None => <[s := zero_values]> q
  end.

(** [update_q]; [None] is a [KeyError] or [ValueError]. *)
Definition update_q (t : TrashTruckAgent) (s : qstate) (a : action)
    (reward : Z) (next_state : qstate) : option TrashTruckAgent :=
  let q := init_state next_state (init_state s (q_table t)) in
  row ← q !! s;
  old_value ← dict_get row a;
  next_row ← q !! next_state;
  next_max ← max_of (map snd next_row);
  let new_value :=
    (old_value + alpha t * (of_int reward + gamma t * next_max - old_value))%Qc in
  Some (set_q_table t (<[s := dict_set row a new_value]> q)).

(** *** Execution of an action *)

(** The grid move of the four movement actions, clamped at the borders. *)
Definition move_target (a : action) (p : pos) : pos :=
  let '(x, y) := p in
  match a with
  | Up => if y <? 7 then (x, y + 1) else p
  | Down => if 0 <? y then (x, y - 1) else p
  | Left => if 0 <? x then (x - 1, y) else p
  | Right => if x <? 7 then (x + 1, y) else p
  | Collect | ChangeRoute => p
  end.

(** Distance from [p] to the nearest of the positions [c :: cs]. *)
Definition nearest_distance (p : pos) (c : pos) (cs : list pos) : Z :=
  min_of (manhattan p c) (map (manhattan p) cs).

(** The reward for approaching the critical containers: [dist_after] is
    computed from the [next_pos] known at this point of [execute]. *)
Definition approach_reward (critical_containers : list pos)
    (p next_pos : pos) : Z :=
  match critical_containers with
  | [] => 0
  | c :: cs =>
      let dist_before := nearest_distance p c cs in
      let dist_after := nearest_distance next_pos c cs in
      if dist_after <? dist_before then 2 else 0
  end.

(** The body of [if action == "collect"]: the reward it adds, the store and
    the truck afterwards. *)
Definition collect_block (m : list TrashContainerAgent) (t : TrashTruckAgent)
    : Z * list TrashContainerAgent * TrashTruckAgent :=
  match get_container_at_position m (position t) with
  | Some (i, container_at_position) =>
      if load t <? capacity t then
        if 0 <? current_fill container_at_position then
          let truck_space := capacity t - load t in
          let amount_to_collect :=
            Z.min (Z.min (current_fill container_at_position) truck_space) 10 in
          let '(collected, c') :=
            collect_trash container_at_position amount_to_collect in
          let reward := 30 * collected in
          let reward :=
            if is_critical c' then reward + 100 * collected else reward in
          (reward, <[i := c']> m, set_load t (load t + collected))
        else (-2, m, t)
      else (-2, m, t)
  | None => (-2, m, t)
  end.

(** The body of [if action == "change_route"]: the reward it adds and the
    new [next_pos]. *)
Definition reroute_block (critical_containers : list pos)
    (p next_pos : pos) : Z * pos :=
  match critical_containers with
  | c :: cs =>
      let '(current_x, current_y) := p in
      let '(target_x, target_y) := min_key (manhattan p) c cs in
      let next_pos :=
        if (current_x <? target_x) && (current_x <? 7)
        then (current_x + 1, current_y)
        else if (target_x <? current_x) && (0 <? current_x)
        then (current_x - 1, current_y)
        else if (current_y <? target_y) && (current_y <? 7)
        then (current_x, current_y + 1)
        else if (target_y <? current_y) && (0 <? current_y)
        then (current_x, current_y - 1)
        else next_pos in
      (10, next_pos)
  | [] => (-2, next_pos)
  end.

(** [if self.load >= self.capacity: reward -= 20] *)
Definition full_penalty (t : TrashTruckAgent) : Z :=
  if capacity t <=? load t then -20 else 0.

(** [reward -= 30 * len(overflowing_containers)] *)
Definition overflow_penalty (m : list TrashContainerAgent) : Z :=
  - (30 * Z.of_nat (length (get_overflowing_containers m))).

(** [execute]: the pair [(reward, next_state)] it returns, and the store and
    the truck afterwards. *)
Definition execute (m : list TrashContainerAgent) (t : TrashTruckAgent)
    (a : action)
    : (Z * qstate) * (list TrashContainerAgent * TrashTruckAgent) :=
  let p := position t in
  let next_pos := move_target a p in
  let reward := 0 in
  let reward := reward + approach_reward (get_critical_containers m) p next_pos in
  let '(r_collect, m, t) :=
    match a with
    | Collect => collect_block m t
    | _ => (0, m, t)
    end in
  let reward := reward + r_collect in
  let '(r_route, next_pos) :=
    match a with
    | ChangeRoute => reroute_block (get_critical_containers m) p next_pos
    | _ => (0, next_pos)
    end in
  let reward := reward + r_route in
  let reward := reward + full_penalty t in
  let reward := reward + overflow_penalty m in
  let t := set_position t next_pos in
  ((reward, state t), (m, t)).

(** The first three statements of [TrashTruckAgent.step]: the state, the
    action chosen and the outcome of executing it. *)
Definition decide_and_execute (m : list TrashContainerAgent)
    (t : TrashTruckAgent) (u : Qc) (rc : action)
    : qstate * action * (Z * qstate)
      * (list TrashContainerAgent * TrashTruckAgent) :=
  let st := state t in
  let '(a, t) := choose_action m t st u rc in
  (st, a, fst (execute m t a), snd (execute m t a)).

(** [TrashTruckAgent.step] *)
Definition truck_step (m : list TrashContainerAgent) (t : TrashTruckAgent)
    (u : Qc) (rc : action)
    : option (list TrashContainerAgent * TrashTruckAgent) :=
  let '(st, a, (reward, next_state), (m, t)) := decide_and_execute m t u rc in
  t ← update_q t st a reward next_state;
  Some (m, t).

(** ** GarbageEnvironment *)

Record Parameters : Type := mkParameters {
  p_steps : Z;
  p_capacity : Z;
  p_epsilon : Qc;
  p_alpha : Qc;
  p_gamma : Qc;
  container_limit : Z;
  population_density : Qc
}.

Record GarbageEnvironment : Type := mkEnvironment {
  containers : list TrashContainerAgent;
  trucks : list TrashTruckAgent;
  initial_trash : Z
}.

Definition container_positions : list pos :=
  [(1, 1); (6, 1); (2, 5); (5, 6); (3, 3)].

Definition start_positions : list pos := [(0, 0); (7, 0); (0, 7)].

(** [TrashContainerAgent.setup]; the position, [None] in the source, is set
    by the environment before it is read. *)
Definition container_setup (p : Parameters) : TrashContainerAgent :=
  {| c_position := (0, 0); c_capacity := container_limit p;
     current_fill := 0; generation_rate := 0 |}.

(** [TrashTruckAgent.setup]: the identity is still 0 when the table is
    loaded. *)
Definition truck_setup (p : Parameters) (fs : gmap Z file) : TrashTruckAgent :=
  load_q_table fs
    {| capacity := p_capacity p; load := 0; position := (0, 0);
       q_table := ∅; epsilon := p_epsilon p; alpha := p_alpha p;
       gamma := p_gamma p; truck_id := 0 |}.

(** [GarbageEnvironment.setup]; [fill i] is the value [random.randint(5, 20)]
    returns for container [i], [fs] the files present. *)
Definition setup (p : Parameters) (fs : gmap Z file) (fill : nat -> Z)
    : GarbageEnvironment :=
  let containers :=
    imap (fun i position =>
            {| c_position := position; c_capacity := c_capacity (container_setup p);
               current_fill := fill i;
               generation_rate := generation_rate (container_setup p) |})
         container_positions in
  let trucks :=
    imap (fun i position =>
            set_truck_id (set_position (truck_setup p fs) position) (Z.of_nat i))
         start_positions in
  {| containers := containers; trucks := trucks;
     initial_trash := foldr Z.add 0 (map current_fill containers) |}.

(** [self.trucks.step()]: the trucks act in list order on the shared store;
    [draw i] are the random values of truck [i]. *)
Fixpoint trucks_step (draw : nat -> Qc * action) (i : nat)
    (m : list TrashContainerAgent) (ts : list TrashTruckAgent)
    : option (list TrashContainerAgent * list TrashTruckAgent) :=
  match ts with
  | [] => Some (m, [])
  | t :: ts' =>
      '(m', t') ← truck_step m t (fst (draw i)) (snd (draw i));
      '(m'', ts'') ← trucks_step draw (S i) m' ts';
      Some (m'', t' :: ts'')
  end.

(** [GarbageEnvironment.step]; [cdraw i] are the random values of container
    [i], [tdraw i] those of truck [i]. *)
Definition model_step (p : Parameters) (cdraw : nat -> Qc * Z)
    (tdraw : nat -> Qc * action) (e : GarbageEnvironment)
    : option GarbageEnvironment :=
  let containers :=
    imap (fun i c =>
            container_step (population_density p) (fst (cdraw i)) (snd (cdraw i)) c)
         (containers e) in
  '(containers, trucks) ← trucks_step tdraw 0%nat containers (trucks e);
  Some {| containers := containers; trucks := trucks;
          initial_trash := initial_trash e |}.

(** The states the environment can be in: after [setup], and after every
    [step] that returns. *)
Inductive reachable (p : Parameters) : GarbageEnvironment -> Prop :=
  | reachable_setup (fs : gmap Z file) (fill : nat -> Z) :
      (forall i, 5 <= fill i <= 20) ->
      reachable p (setup p fs fill)
  | reachable_step (e e' : GarbageEnvironment)
      (cdraw : nat -> Qc * Z) (tdraw : nat -> Qc * action) :
      reachable p e ->
      (forall i, valid_generation (population_density p) (snd (cdraw i))) ->
      model_step p cdraw tdraw e = Some e' ->
      reachable p e'.
(** The [parameters] of [agents2.py]. *)
Definition parameters : Parameters :=
  {| p_steps := 50; p_capacity := 35; p_epsilon := decimal 3 10;
     p_alpha := decimal 15 100; p_gamma := decimal 9 10;
     container_limit := 30; population_density := decimal 2 10 |}.

(** ** The thresholds in binary64

    The three threshold tests as Python evaluates them, on the kernel's
    binary64 numbers, to compare the rational model with. *)

Fixpoint int63_of_pos (p : positive) : PrimInt63.int :=
  match p with
  | xH => 1%uint63
  | xO p => PrimInt63.lsl (int63_of_pos p) 1%uint63
  | xI p => PrimInt63.lor (PrimInt63.lsl (int63_of_pos p) 1%uint63) 1%uint63
  end.

(** [float(z)], exact for the integers below [2^53] in absolute value. *)
Definition float_of_int (z : Z) : PrimFloat.float :=
  match z with
  | Z0 => 0%float
  | Zpos p => PrimFloat.of_uint63 (int63_of_pos p)
  | Zneg p => PrimFloat.opp (PrimFloat.of_uint63 (int63_of_pos p))
  end.

(** [fill >= 0.9 * capacity] *)
Definition critical64 (cap fill : Z) : bool :=
  PrimFloat.leb (PrimFloat.mul 0.9%float (float_of_int cap)) (float_of_int fill).

(** [fill >= 0.7 * capacity] *)
Definition medium64 (cap fill : Z) : bool :=
  PrimFloat.leb (PrimFloat.mul 0.7%float (float_of_int cap)) (float_of_int fill).

(** [load >= capacity * 0.8] *)
Definition dump64 (cap load : Z) : bool :=
  PrimFloat.leb (PrimFloat.mul (float_of_int cap) 0.8%float) (float_of_int load).

(** The binary64 tests and the exact ones (cross-multiplied) agree at a
    capacity and a level. *)
Definition agree_at (cap level : Z) : bool :=
  Bool.eqb (critical64 cap level) (9 * cap <=? 10 * level)
  && Bool.eqb (medium64 cap level) (7 * cap <=? 10 * level)
  && Bool.eqb (dump64 cap level) (8 * cap <=? 10 * level).

(** They agree on every capacity below [n] and every level up to twice the
    capacity. *)
Definition thresholds_agree (n : nat) : bool :=
  forallb
    (fun cap : nat =>
       forallb (fun level : nat => agree_at (Z.of_nat cap) (Z.of_nat level))
               (seq 0 (2 * cap + 1)))
    (seq 0 n).

(** ** Notions used to state the properties *)

(** [Q[s][a]], when both keys are present. *)
Definition q_lookup (q : gmap qstate action_values) (s : qstate) (a : action)
    : option Qc :=
  row ← q !! s; dict_get row a.

(** Every row of the table has the six actions as keys, in the order of
    [possible_actions]: the shape [update_q] gives to the rows it creates. *)
Definition wf_q_table (q : gmap qstate action_values) : Prop :=
  forall s row, q !! s = Some row -> map fst row = possible_actions.

(** What [execute] adds to the reward besides the approach term: the reward
    of the collect and change_route blocks and the two penalties. *)
Definition other_rewards (m : list TrashContainerAgent) (t : TrashTruckAgent)
    (a : action) : Z :=
  let p := position t in
  let '(r_collect, m', t') :=
    match a with
    | Collect => collect_block m t
    | _ => (0, m, t)
    end in
  let r_route :=
    match a with
    | ChangeRoute =>
        fst (reroute_block (get_critical_containers m') p (move_target a p))
    | _ => 0
    end in
  r_collect + r_route + full_penalty t' + overflow_penalty m'.

(** The approach term as the specification words it: the distance to the
    nearest critical container at the position before the action against
    the distance at the position the action leaves the truck at. *)
Definition approach_term (critical_containers : list pos)
    (before after : pos) : Z :=
  match critical_containers with
  | [] => 0
  | c :: cs =>
      if nearest_distance after c cs <? nearest_distance before c cs
      then 2 else 0
  end.

(** The bounds of the data model. *)
Definition container_inv (c : TrashContainerAgent) : Prop :=
  0 <= current_fill c <= 2 * c_capacity c.

Definition truck_inv (t : TrashTruckAgent) : Prop :=
  0 <= load t <= capacity t.

(** ** GarbageEnvironment.end and the reports of agents2.py *)

(** [sum(c.current_fill for c in self.containers)] *)
Definition total_fill (m : list TrashContainerAgent) : Z :=
  foldr Z.add 0 (map current_fill m).

(** [sum(t.load for t in self.trucks)] *)
Definition total_load (ts : list TrashTruckAgent) : Z :=
  foldr Z.add 0 (map load ts).

(** [(total_collected / max(1, total_trash_generated + total_collected))
    * 100] *)
Definition end_efficiency (total_trash_generated total_collected : Z) : Qc :=
  (of_int total_collected
   / of_int (Z.max 1 (total_trash_generated + total_collected))
   * of_int 100)%Qc.

(** [GarbageEnvironment.end]: every truck saves its table, in list order,
    and the efficiency is returned. *)
Definition model_end (fs : gmap Z file) (e : GarbageEnvironment)
    : gmap Z file * Qc :=
  (foldl save_q_table fs (trucks e),
   end_efficiency (total_fill (containers e)) (total_load (trucks e))).

(** The colour of a container in [realtime_simulation]:
    ['red' if c.is_critical() else ('orange' if c.is_overflowing() else
    'green')]. *)
Inductive colour : Type := Red | Orange | Green.

Definition container_colour (c : TrashContainerAgent) : colour :=
  if is_critical c then Red else if is_overflowing c then Orange else Green.

(** The label of a container in the final report of [agents2.py], which
    tests the fill against [parameters['container_limit']]. *)
Inductive report_label : Type :=
  | Desbordado | Critico | Medio | Ok.

Definition report_status (limit : Z) (c : TrashContainerAgent) : report_label :=
  if limit <=? current_fill c then Desbordado
  else if Qc_leb (decimal 9 10 * of_int limit) (of_int (current_fill c))
  then Critico
  else if Qc_leb (decimal 7 10 * of_int limit) (of_int (current_fill c))
  then Medio
  else Ok.

(** [contenedores_criticos] of the final report: the containers labelled
    overflowing or critical. *)
Definition contenedores_criticos (limit : Z) (m : list TrashContainerAgent)
    : Z :=
  foldl (fun n c =>
           match report_status limit c with
           | Desbordado | Critico => n + 1
           | Medio | Ok => n
           end) 0 m.

(** ** api_server.py: the snapshot of a step *)

Record Position : Type := mkPosition { px : Qc; py : Qc; pz : Qc }.

(** [convert_position_to_3d] *)
Definition convert_position_to_3d (position_2d : pos) (agent_type : string)
    : Position :=
  let '(x, y) := position_2d in
  let scale := decimal 5 1 in
  let z_offset :=
    if String.eqb agent_type "truck" then decimal 5 10 else decimal 0 1 in
  {| px := (of_int x * scale)%Qc; py := z_offset; pz := (of_int y * scale)%Qc |}.

Inductive truck_status : Type :=
  | StatusFull | StatusHalfFull | StatusCollecting | StatusEmpty.

(** [(a / b) * 100]; [None] is the [ZeroDivisionError]. *)
Definition percentage (a b : Z) : option Qc :=
  if b =? 0 then None else Some (of_int a / of_int b * of_int 100)%Qc.

(** [get_truck_status] *)
Definition get_truck_status (t : TrashTruckAgent) : option truck_status :=
  load_percentage ← percentage (load t) (capacity t);
  Some (if Qc_leb (of_int 90) load_percentage then StatusFull
        else if Qc_leb (of_int 50) load_percentage then StatusHalfFull
        else if 0 <? load t then StatusCollecting
        else StatusEmpty).

Record TruckData : Type := mkTruckData {
  td_id : nat;
  td_position : Position;
  td_load : Z;
  td_capacity : Z;
  td_load_percentage : Qc;
  td_status : truck_status
}.

Record ContainerData : Type := mkContainerData {
  cd_id : nat;
  cd_position : Position;
  cd_current_fill : Z;
  cd_capacity : Z;
  cd_fill_percentage : Qc;
  cd_status : container_status;
  cd_is_critical : bool;
  cd_is_overflowing : bool
}.

Record SimulationData : Type := mkSimulationData {
  sd_step : Z;
  sd_trucks : list TruckData;
  sd_containers : list ContainerData;
  sd_total_trash_collected : Z;
  sd_efficiency : Qc;
  sd_critical_containers : Z;
  sd_timestamp : Qc
}.

(** One [TruckData(...)] of [extract_simulation_data]. *)
Definition truck_data (i : nat) (truck : TrashTruckAgent) : option TruckData :=
  load_percentage ← percentage (load truck) (capacity truck);
  status ← get_truck_status truck;
  Some {| td_id := i;
          td_position := convert_position_to_3d (position truck) "truck";
          td_load := load truck; td_capacity := capacity truck;
          td_load_percentage := load_percentage; td_status := status |}.

(** One [ContainerData(...)] of [extract_simulation_data]. *)
Definition container_data (i : nat) (container : TrashContainerAgent)
    : option ContainerData :=
  fill_percentage ← percentage (current_fill container) (c_capacity container);
  Some {| cd_id := i;
          cd_position :=
            convert_position_to_3d (c_position container) "container";
          cd_current_fill := current_fill container;
          cd_capacity := c_capacity container;
          cd_fill_percentage := fill_percentage;
          cd_status := get_container_status container;
          cd_is_critical := is_critical container;
          cd_is_overflowing := is_overflowing container |}.

(** The efficiency of the snapshot:
    [(collected / in_system * 100) if in_system > 0 else 0]. *)
Definition snapshot_efficiency (total_trash_collected total_trash_in_system : Z)
    : Qc :=
  if 0 <? total_trash_in_system
  then (of_int total_trash_collected / of_int total_trash_in_system
        * of_int 100)%Qc
  else of_int 0.

(** [extract_simulation_data]; [now] is the value of [time.time()], [None]
    a [ZeroDivisionError]. *)
Definition extract_simulation_data (model : GarbageEnvironment)
    (step_number : Z) (now : Qc) : option SimulationData :=
  trucks_data ← mapM (fun it => truck_data (fst it) (snd it))
                     (imap pair (trucks model));
  containers_data ← mapM (fun ic => container_data (fst ic) (snd ic))
                         (imap pair (containers model));
  let total_trash_collected := total_load (trucks model) in
  let total_trash_in_system :=
    total_fill (containers model) + total_trash_collected in
  let efficiency :=
    snapshot_efficiency total_trash_collected total_trash_in_system in
  let critical_containers :=
    foldr Z.add 0
      (map (fun _ => 1) (List.filter is_critical (containers model))) in
  Some {| sd_step := step_number; sd_trucks := trucks_data;
          sd_containers := containers_data;
          sd_total_trash_collected := total_trash_collected;
          sd_efficiency := efficiency;
          sd_critical_containers := critical_containers;
          sd_timestamp := now |}.

(** *** The history of snapshots *)

(** The statements of [run_simulation_thread] that keep the history:
    [simulation_data_history.append(step_data)], then
    [if len(...) > 100: simulation_data_history.pop(0)]. *)
Definition record_history (history : list SimulationData)
    (step_data : SimulationData) : list SimulationData :=
  let history := history ++ [step_data] in
  if (100 <? length history)%nat then tail history else history.

Inductive api_error : Type :=
  | NoSimulationDataAvailable
  | StepNotFound (step_number : Z).

(** [get_simulation_data_by_step] on the history; the error is the detail
    of the [HTTPException] with status 404. *)
Definition get_simulation_data_by_step (history : list SimulationData)
    (step_number : Z) : api_error + SimulationData :=
  match history with
  | [] => inl NoSimulationDataAvailable
  | _ =>
      match List.find (fun data => sd_step data =? step_number) history with
      | Some data => inr data
      | None => inl (StepNotFound step_number)
      end
  end.



(** *** The truck status in binary64 *)

(** The two percentage tests of [get_truck_status] in binary64. *)
Definition full64 (cap load : Z) : bool :=
  PrimFloat.leb 90%float
    (PrimFloat.mul (PrimFloat.div (float_of_int load) (float_of_int cap))
                   100%float).

Definition half64 (cap load : Z) : bool :=
  PrimFloat.leb 50%float
    (PrimFloat.mul (PrimFloat.div (float_of_int load) (float_of_int cap))
                   100%float).

(** They agree with the exact tests on every capacity from 1 to [n] and
    every load up to the capacity. *)
Definition status_agree (n : nat) : bool :=
  forallb
    (fun cap : nat =>
       forallb
         (fun load : nat =>
            let cap := Z.of_nat (S cap) in
            let load := Z.of_nat load in
            Bool.eqb (full64 cap load) (90 * cap <=? 100 * load)
            && Bool.eqb (half64 cap load) (50 * cap <=? 100 * load))
         (seq 0 (S cap + 1)))
    (seq 0 n).

(** The loop of [realtime_simulation] and of [run_simulation_thread] on the
    environment: [steps] calls of [model.step()]; [cdraw k] and [tdraw k] are
    the random values of call [k]. *)
Fixpoint simulate (steps : nat) (p : Parameters)
    (cdraw : nat -> nat -> Qc * Z) (tdraw : nat -> nat -> Qc * action)
    (e : GarbageEnvironment) : option GarbageEnvironment :=
  match steps with
  | O => Some e
  | S k =>
      e' ← model_step p (cdraw 0%nat) (tdraw 0%nat) e;
      simulate k p (fun i => cdraw (S i)) (fun i => tdraw (S i)) e'
  end.

(** ** Notions used to state further properties *)

(** A position of the 8 x 8 grid. *)
Definition in_grid (p : pos) : Prop :=
  0 <= fst p <= 7 /\ 0 <= snd p <= 7.

(** The four grid moves. *)
Definition is_move (a : action) : Prop :=
  a = Up \/ a = Down \/ a = Left \/ a = Right.

(** ** Facts about the numeric model *)

Lemma Qc_leb_le (x y : Qc) : Qc_leb x y = true <-> (x <= y)%Qc.
Proof. unfold Qc_leb, Qcle. apply Qle_bool_iff. Qed.

Lemma Qc_ltb_lt (x y : Qc) : Qc_ltb x y = true <-> (x < y)%Qc.
Proof.
  unfold Qc_ltb. rewrite negb_true_iff, <- not_true_iff_false.
  fold (Qc_leb y x). rewrite Qc_leb_le. split.
  - apply Qcnot_le_lt.
  - apply Qclt_not_le.
Qed.

(** Comparing an integer with a decimal fraction of another integer is the
    cross-multiplied comparison of integers. *)
Lemma scaled_threshold (n : Z) (d : positive) (cap fill : Z) :
  Qc_leb (decimal n d * of_int cap) (of_int fill) = (n * cap <=? Z.pos d * fill).
Proof.
  apply eq_true_iff_eq. rewrite Z.leb_le.
  unfold Qc_leb. rewrite Qle_bool_iff.
  unfold decimal, of_int, Qcmult. cbn [this Q2Qc].
  rewrite !Qred_correct.
  unfold Qle, Qmult, inject_Z. cbn [Qnum Qden].
  rewrite Pos.mul_1_r. lia.
Qed.

Lemma is_critical_spec (c : TrashContainerAgent) :
  is_critical c = (9 * c_capacity c <=? 10 * current_fill c).
Proof. unfold is_critical. apply scaled_threshold. Qed.

Lemma Qc_max_cases (a b : Qc) :
  (Qc_max a b = a /\ (b <= a)%Qc) \/ (Qc_max a b = b /\ (a < b)%Qc).
Proof.
  unfold Qc_max. destruct (Qc_ltb a b) eqn:E.
  - right. split; [reflexivity | now apply Qc_ltb_lt].
  - left. split; [reflexivity |].
    apply Qcnot_lt_le. intros H. apply Qc_ltb_lt in H. congruence.
Qed.

(** ** TrashContainerAgent: collection and the two predicates *)

Section Container.
Variable c : TrashContainerAgent.

(** C2. [collect_trash(amount)] with a non-negative amount returns
    [min(current_fill, amount)], never more than the fill held at call
    time, leaves [current_fill] equal to the fill before minus the
    returned value, and that fill is not negative. *)
Theorem collect_trash_spec (amount : Z) :
  0 <= amount ->
  let collected := fst (collect_trash c amount) in
  let c' := snd (collect_trash c amount) in
  collected = Z.min (current_fill c) amount
  /\ collected <= current_fill c
  /\ current_fill c' = current_fill c - collected
  /\ 0 <= current_fill c'
  /\ c_capacity c' = c_capacity c
  /\ c_position c' = c_position c.
Proof.
  intros Hamount. cbn. repeat split; lia.
Qed.

(** C10. With a positive capacity, an overflowing container is
    critical. *)
Theorem overflowing_is_critical :
  0 < c_capacity c -> is_overflowing c = true -> is_critical c = true.
Proof.
  intros Hcap. rewrite is_critical_spec. unfold is_overflowing.
  rewrite !Z.leb_le. lia.
Qed.

(** C9. With a positive capacity, the status is [overflowing] exactly
    when [current_fill >= capacity], [critical] exactly when
    [0.9 * capacity <= current_fill < capacity], [medium] exactly when
    [0.7 * capacity <= current_fill < 0.9 * capacity], and [normal]
    otherwise.  The decimal thresholds are written cross-multiplied. *)
Theorem get_container_status_spec :
  0 < c_capacity c ->
  let cap := c_capacity c in
  let fill := current_fill c in
  (get_container_status c = overflowing <-> cap <= fill)
  /\ (get_container_status c = critical <->
      9 * cap <= 10 * fill /\ fill < cap)
  /\ (get_container_status c = medium <->
      7 * cap <= 10 * fill /\ 10 * fill < 9 * cap)
  /\ (get_container_status c = normal <-> 10 * fill < 7 * cap).
Proof.
  intros Hcap cap fill. unfold get_container_status.
  rewrite is_critical_spec, scaled_threshold. unfold is_overflowing.
  fold cap fill.
  destruct (Z.leb_spec cap fill), (Z.leb_spec (9 * cap) (10 * fill)),
    (Z.leb_spec (7 * cap) (Z.pos 10 * fill));
    repeat split; intros; try discriminate; try lia.
Qed.
End Container.

Lemma collect_trash_spec_witness :
  let c := mkContainer (1, 1) 30 20 0 in
  fst (collect_trash c 10) = Z.min (current_fill c) 10
  /\ fst (collect_trash c 10) <= current_fill c
  /\ current_fill (snd (collect_trash c 10))
     = current_fill c - fst (collect_trash c 10)
  /\ 0 <= current_fill (snd (collect_trash c 10))
  /\ c_capacity (snd (collect_trash c 10)) = c_capacity c
  /\ c_position (snd (collect_trash c 10)) = c_position c.
Proof.
  intros c. apply (collect_trash_spec c 10). lia.
Defined.

Lemma overflowing_is_critical_witness :
  is_critical (mkContainer (1, 1) 30 31 0) = true.
Proof.
  apply (overflowing_is_critical (mkContainer (1, 1) 30 31 0)).
  - simpl. lia.
  - reflexivity.
Defined.

Lemma get_container_status_spec_witness :
  let c := mkContainer (3, 3) 30 22 0 in
  (get_container_status c = overflowing <-> 30 <= 22)
  /\ (get_container_status c = critical <-> 9 * 30 <= 10 * 22 /\ 22 < 30)
  /\ (get_container_status c = medium <->
      7 * 30 <= 10 * 22 /\ 10 * 22 < 9 * 30)
  /\ (get_container_status c = normal <-> 10 * 22 < 7 * 30).
Proof.
  intros c. apply (get_container_status_spec c). simpl. lia.
Defined.

(** ** TrashTruckAgent: the priority rule *)

(** C1. A truck whose position holds a container with positive fill, and
    whose load is below its capacity, chooses [collect], whatever the
    exploration rate, the value table and the random draws. *)
Theorem choose_action_collect (m : list TrashContainerAgent)
    (t : TrashTruckAgent) (st : qstate) (u : Qc) (rc : action)
    (i : nat) (c : TrashContainerAgent) :
  get_container_at_position m (position t) = Some (i, c) ->
  0 < current_fill c ->
  load t < capacity t ->
  choose_action m t st u rc = (Collect, t).
Proof.
  intros Hat Hfill Hload. unfold choose_action. rewrite Hat.
  apply Z.ltb_lt in Hfill, Hload. rewrite Hfill, Hload. reflexivity.
Qed.

Lemma choose_action_collect_witness :
  let m := [mkContainer (1, 1) 30 20 0] in
  let t := mkTruck 35 0 (1, 1) ∅ (decimal 3 10) (decimal 15 100)
                   (decimal 9 10) 0 in
  choose_action m t (state t) (decimal 9 10) Up = (Collect, t).
Proof.
  intros m t.
  apply (choose_action_collect m t (state t) (decimal 9 10) Up 0%nat
           (mkContainer (1, 1) 30 20 0)).
  - reflexivity.
  - simpl. lia.
  - simpl. lia.
Defined.

(** ** TrashTruckAgent: the value update *)

Lemma max_of_fold (l : list Qc) (x : Qc) :
  (forall y, In y (x :: l) -> (y <= fold_left Qc_max l x)%Qc)
  /\ In (fold_left Qc_max l x) (x :: l).
Proof.
  revert x. induction l as [|z l IH]; intros x; cbn [fold_left].
  - split; [|now left]. intros y [<-|[]]. apply Qcle_refl.
  - destruct (IH (Qc_max x z)) as [Hub Hin]. split.
    + intros y Hy.
      assert (Hxz : (x <= Qc_max x z)%Qc /\ (z <= Qc_max x z)%Qc).
      { destruct (Qc_max_cases x z) as [[-> Hle]|[-> Hlt]]; split;
          auto using Qcle_refl, Qclt_le_weak. }
      destruct Hxz as [Hx Hz].
      assert (Hm : (Qc_max x z <= fold_left Qc_max l (Qc_max x z))%Qc)
        by (apply Hub; now left).
      destruct Hy as [<-|[<-|Hy]].
      * eapply Qcle_trans; eassumption.
      * eapply Qcle_trans; eassumption.
      * apply Hub. now right.
    + destruct Hin as [Heq|Hin].
      * rewrite <- Heq.
        destruct (Qc_max_cases x z) as [[-> _]|[-> _]]; cbn; auto.
      * right. now right.
Qed.

(** [max(...)] is an upper bound of the sequence and one of its elements. *)
Lemma max_of_spec (l : list Qc) (M : Qc) :
  max_of l = Some M -> (forall y, In y l -> (y <= M)%Qc) /\ In M l.
Proof.
  destruct l as [|x l]; cbn; [discriminate|].
  intros [= <-]. apply max_of_fold.
Qed.

Lemma wf_row_inv (row : action_values) :
  map fst row = possible_actions ->
  exists v1 v2 v3 v4 v5 v6,
    row = [(Up, v1); (Down, v2); (Left, v3); (Right, v4); (Collect, v5);
           (ChangeRoute, v6)].
Proof.
  unfold possible_actions. intros H.
  do 6 (destruct row as [|[? ?] row]; [discriminate|]).
  destruct row; [|discriminate].
  cbn in H. injection H as -> -> -> -> -> ->. eauto 7.
Qed.

Lemma dict_get_wf (row : action_values) (a : action) :
  map fst row = possible_actions -> is_Some (dict_get row a).
Proof.
  intros H. destruct (wf_row_inv row H) as (v1 & v2 & v3 & v4 & v5 & v6 & ->).
  destruct a; cbn; eauto.
Qed.

Lemma dict_get_In (row : action_values) (a : action) (v : Qc) :
  dict_get row a = Some v -> In v (map snd row).
Proof.
  induction row as [|[k w] row IH]; cbn; [discriminate|].
  destruct (decide (k = a)); [intros [= <-]; now left | right; auto].
Qed.

Lemma In_dict_get_wf (row : action_values) (v : Qc) :
  map fst row = possible_actions ->
  In v (map snd row) -> exists a, dict_get row a = Some v.
Proof.
  intros H. destruct (wf_row_inv row H) as (v1 & v2 & v3 & v4 & v5 & v6 & ->).
  cbn. intros [<-|[<-|[<-|[<-|[<-|[<-|[]]]]]]];
    [exists Up|exists Down|exists Left|exists Right|exists Collect
    |exists ChangeRoute]; reflexivity.
Qed.

Lemma dict_get_set (row : action_values) (a b : action) (v : Qc) :
  dict_get (dict_set row a v) b
  = if decide (a = b) then Some v else dict_get row b.
Proof.
  induction row as [|[k w] row IH]; cbn.
  - destruct (decide (a = b)); reflexivity.
  - destruct (decide (k = a)) as [->|Hka]; cbn.
    + destruct (decide (a = b)); reflexivity.
    + destruct (decide (k = b)) as [->|Hkb].
      * destruct (decide (a = b)); congruence.
      * apply IH.
Qed.

Lemma dict_set_keys (row : action_values) (a : action) (v : Qc) :
  is_Some (dict_get row a) -> map fst (dict_set row a v) = map fst row.
Proof.
  induction row as [|[k w] row IH]; cbn.
  - intros [? [=]].
  - destruct (decide (k = a)); cbn; [reflexivity|].
    intros H. f_equal. auto.
Qed.

Lemma wf_zero_values : map fst zero_values = possible_actions.
Proof. reflexivity. Qed.

Lemma wf_init_state (s : qstate) (q : gmap qstate action_values) :
  wf_q_table q -> wf_q_table (init_state s q).
Proof.
  intros Hwf x row. unfold init_state.
  destruct (q !! s) eqn:E; [apply Hwf|].
  destruct (decide (s = x)) as [->|Hne].
  - rewrite lookup_insert_eq. intros [= <-]. apply wf_zero_values.
  - rewrite lookup_insert_ne by assumption. apply Hwf.
Qed.

Lemma init_state_lookup (s x : qstate) (q : gmap qstate action_values) :
  init_state s q !! x
  = match q !! x with
    | Some row => Some row
    | None => if decide (s = x) then Some zero_values else None
    end.
Proof.
  unfold init_state. destruct (q !! s) eqn:E.
  - destruct (q !! x) eqn:Ex; [reflexivity|].
    destruct (decide (s = x)); [congruence | reflexivity].
  - destruct (decide (s = x)) as [->|Hne].
    + rewrite lookup_insert_eq, E. reflexivity.
    + rewrite lookup_insert_ne by assumption. now destruct (q !! x).
Qed.

Lemma init_state_self (s : qstate) (q : gmap qstate action_values) :
  is_Some (init_state s q !! s).
Proof.
  rewrite init_state_lookup. destruct (q !! s); [eauto|].
  rewrite decide_True by reflexivity. eauto.
Qed.

(** C4. [update_q] first gives every unseen state among [state] and
    [next_state] a row with the six actions at value 0, then stores
    [old_value + alpha * (reward + gamma * next_max - old_value)] at
    [Q[state][action]], where [next_max] is the greatest of the six values of
    [next_state]; nothing else changes, it returns on every table whose rows
    have the six actions (unseen states included), and for [alpha = 0] the
    stored value is the old one. *)
Theorem update_q_spec (t : TrashTruckAgent) (s : qstate) (a : action)
    (reward : Z) (next_state : qstate) :
  wf_q_table (q_table t) ->
  let q0 := init_state next_state (init_state s (q_table t)) in
  (forall x,
      q0 !! x = match q_table t !! x with
                | Some row => Some row
                | None => if decide (x = s \/ x = next_state)
                          then Some zero_values else None
                end)
  /\ (forall a', dict_get zero_values a' = Some (Q2Qc 0))
  /\ exists t' old_value next_max,
      update_q t s a reward next_state = Some t'
      /\ q_lookup q0 s a = Some old_value
      /\ (forall a', exists v,
             q_lookup q0 next_state a' = Some v /\ (v <= next_max)%Qc)
      /\ (exists a', q_lookup q0 next_state a' = Some next_max)
      /\ q_lookup (q_table t') s a
         = Some (old_value
                 + alpha t * (of_int reward + gamma t * next_max - old_value))%Qc
      /\ (forall s2 a2, (s2, a2) <> (s, a) ->
             q_lookup (q_table t') s2 a2 = q_lookup q0 s2 a2)
      /\ (alpha t = Q2Qc 0 -> q_lookup (q_table t') s a = Some old_value)
      /\ wf_q_table (q_table t')
      /\ set_q_table t' (q_table t) = t.
Proof.
  intros Hwf q0.
  assert (Hwf0 : wf_q_table q0) by (do 2 apply wf_init_state; exact Hwf).
  split; [|split].
  - intros x. unfold q0. rewrite !init_state_lookup.
    destruct (q_table t !! x); [reflexivity|].
    destruct (decide (s = x)) as [->|Hs].
    + rewrite decide_True by auto. reflexivity.
    + destruct (decide (next_state = x)) as [->|Hn].
      * rewrite decide_True by auto. reflexivity.
      * rewrite decide_False by (intros [?|?]; congruence). reflexivity.
  - intros []; reflexivity.
  - assert (Hs : is_Some (q0 !! s)).
    { unfold q0. rewrite init_state_lookup.
      destruct (init_state_self s (q_table t)) as [row ->]. eauto. }
    destruct Hs as [row Hrow].
    destruct (init_state_self next_state (init_state s (q_table t)))
      as [next_row Hnext]. fold q0 in Hnext.
    pose proof (Hwf0 _ _ Hrow) as Hkeys.
    pose proof (Hwf0 _ _ Hnext) as Hnkeys.
    destruct (dict_get_wf row a Hkeys) as [old_value Hold].
    assert (Hmax : is_Some (max_of (map snd next_row))).
    { destruct (wf_row_inv _ Hnkeys) as (? & ? & ? & ? & ? & ? & ->).
      cbn. eauto. }
    destruct Hmax as [next_max Hmax].
    destruct (max_of_spec _ _ Hmax) as [Hub Hin].
    set (new_value :=
           (old_value
            + alpha t * (of_int reward + gamma t * next_max - old_value))%Qc).
    exists (set_q_table t (<[s := dict_set row a new_value]> q0)),
      old_value, next_max.
    assert (Hnew : q_lookup (<[s := dict_set row a new_value]> q0) s a
                   = Some new_value).
    { unfold q_lookup. rewrite lookup_insert_eq. cbn.
      rewrite dict_get_set, decide_True by reflexivity. reflexivity. }
    repeat split.
    + unfold update_q. fold q0. rewrite Hrow. cbn. rewrite Hold. cbn.
      rewrite Hnext. cbn. rewrite Hmax. reflexivity.
    + unfold q_lookup. rewrite Hrow. exact Hold.
    + intros a'. unfold q_lookup. rewrite Hnext. cbn.
      destruct (dict_get_wf next_row a' Hnkeys) as [v Hv].
      exists v. split; [exact Hv|]. apply Hub. eapply dict_get_In, Hv.
    + unfold q_lookup. rewrite Hnext. cbn.
      apply In_dict_get_wf; assumption.
    + exact Hnew.
    + intros s2 a2 Hne. cbn. unfold q_lookup.
      destruct (decide (s = s2)) as [<-|Hs2].
      * rewrite lookup_insert_eq, Hrow. cbn.
        rewrite dict_get_set, decide_False by congruence. reflexivity.
      * rewrite lookup_insert_ne by assumption. reflexivity.
    + intros Halpha. cbn. rewrite Hnew. f_equal. unfold new_value.
      rewrite Halpha. ring.
    + intros x r. cbn. destruct (decide (s = x)) as [<-|Hx].
      * rewrite lookup_insert_eq. intros [= <-].
        rewrite dict_set_keys by eauto. exact Hkeys.
      * rewrite lookup_insert_ne by assumption. apply Hwf0.
    + destruct t; reflexivity.
Qed.

Lemma wf_q_table_empty : wf_q_table ∅.
Proof. intros s row H. rewrite lookup_empty in H. discriminate. Qed.

Lemma update_q_spec_witness :
  let t := mkTruck 35 0 (1, 1) ∅ (decimal 3 10) (decimal 15 100)
                   (decimal 9 10) 0 in
  exists t' : TrashTruckAgent,
    update_q t ((1, 1), 0) Collect 300 ((1, 1), 10) = Some t'
    /\ q_lookup (q_table t') ((1, 1), 0) Collect
       = Some (Q2Qc 0 + decimal 15 100
                        * (of_int 300 + decimal 9 10 * Q2Qc 0 - Q2Qc 0))%Qc.
Proof.
  intros t.
  destruct (update_q_spec t ((1, 1), 0) Collect 300 ((1, 1), 10)
              wf_q_table_empty)
    as (Hinit & _ & t' & old_value & next_max & Hrun & Hold & Hub & Hmax
        & Hnew & _).
  exists t'. split; [exact Hrun|].
  assert (old_value = Q2Qc 0) as ->.
  { unfold q_lookup in Hold. rewrite Hinit in Hold. cbn in Hold.
    now injection Hold. }
  assert (next_max = Q2Qc 0) as ->.
  { destruct Hmax as [a' Ha']. unfold q_lookup in Ha'. rewrite Hinit in Ha'.
    cbn in Ha'. destruct a'; now injection Ha'. }
  exact Hnew.
Defined.

(** ** TrashTruckAgent: persistence *)

Lemma decay_below (e : Qc) :
  (decimal 2 10 <= e)%Qc ->
  (Qc_max (decimal 2 10) (e * decimal 98 100) <= e)%Qc.
Proof.
  intros He.
  destruct (Qc_max_cases (decimal 2 10) (e * decimal 98 100))
    as [[-> _]|[-> _]]; [exact He|].
  assert (H0 : (0 <= e)%Qc).
  { eapply Qcle_trans; [|exact He]. now apply Qc_leb_le. }
  rewrite Qcmult_comm. rewrite <- (Qcmult_1_l e) at 2.
  apply Qcmult_le_compat_r; [|exact H0]. now apply Qc_leb_le.
Qed.

Lemma decay_floor (e : Qc) :
  (decimal 2 10 <= Qc_max (decimal 2 10) (e * decimal 98 100))%Qc.
Proof.
  destruct (Qc_max_cases (decimal 2 10) (e * decimal 98 100))
    as [[-> _]|[-> Hlt]]; [apply Qcle_refl | now apply Qclt_le_weak].
Qed.

(** What [load_q_table] finds after [save_q_table], for a truck of the same
    identity, when the file present before was readable or absent. *)
Lemma load_after_save (fs : gmap Z file) (t t2 : TrashTruckAgent) :
  truck_id t2 = truck_id t ->
  fs !! truck_id t <> Some Corrupt ->
  load_q_table (save_q_table fs t) t2
  = set_epsilon (set_q_table t2 (q_table t))
      (Qc_max (decimal 2 10) (epsilon t * decimal 98 100)%Qc).
Proof.
  intros Hid Hfile. unfold load_q_table, save_q_table. rewrite Hid.
  destruct (fs !! truck_id t) as [[|q eps runs]|] eqn:E;
    [congruence| |]; rewrite lookup_insert_eq; reflexivity.
Qed.

(** C8, as the code has it.  Saving a truck's table and loading it back
    into the same truck gives the saved table, and an exploration rate no
    greater than before when that rate was at least the floor [0.2] of the
    load path. *)
Theorem save_load_roundtrip (fs : gmap Z file) (t : TrashTruckAgent) :
  let t' := load_q_table (save_q_table fs t) t in
  q_table t' = q_table t
  /\ ((decimal 2 10 <= epsilon t)%Qc -> (epsilon t' <= epsilon t)%Qc).
Proof.
  intros t'.
  destruct (fs !! truck_id t) as [[|q eps runs]|] eqn:E.
  - assert (t' = t) as ->.
    { unfold t', load_q_table, save_q_table. now rewrite E, E. }
    auto using Qcle_refl.
  - unfold t'. rewrite load_after_save by congruence. cbn.
    auto using decay_below.
  - unfold t'. rewrite load_after_save by congruence. cbn.
    auto using decay_below.
Qed.

Lemma save_load_roundtrip_witness :
  let t := mkTruck 35 0 (0, 0) {[ ((0, 0), 0) := zero_values ]}
                   (decimal 3 10) (decimal 15 100) (decimal 9 10) 0 in
  let t' := load_q_table (save_q_table ∅ t) t in
  q_table t' = q_table t /\ (epsilon t' <= epsilon t)%Qc.
Proof.
  intros t.
  destruct (save_load_roundtrip ∅ t) as [Htable Hrate].
  split; [exact Htable|].
  apply Hrate. apply Qc_leb_le. vm_compute. reflexivity.
Defined.

(** C8 as stated fails below the floor: a truck with exploration rate
    [0.1] (the default of the service configuration) and a non-empty table
    comes back from save and load with rate [0.2]. *)
Lemma save_load_epsilon_counterexample :
  let t := mkTruck 1000 0 (0, 0) {[ ((0, 0), 0) := zero_values ]}
                   (decimal 1 10) (decimal 1 10) (decimal 9 10) 0 in
  let t' := load_q_table (save_q_table ∅ t) t in
  q_table t <> ∅
  /\ q_table t' = q_table t
  /\ epsilon t' = decimal 2 10
  /\ ~ (epsilon t' <= epsilon t)%Qc.
Proof.
  intros t t'. split; [|split; [|split]].
  - cbn. apply insert_non_empty.
  - reflexivity.
  - apply Qc_is_canon. vm_compute. reflexivity.
  - intros H. apply Qc_leb_le in H. vm_compute in H. discriminate.
Qed.

(** ** TrashTruckAgent: the reward of an action *)

(** What the collect block does when there is something to collect: the
    bonus is decided on the container as [collect_trash] left it. *)
Lemma collect_block_collects (m : list TrashContainerAgent)
    (t : TrashTruckAgent) (i : nat) (c : TrashContainerAgent) :
  get_container_at_position m (position t) = Some (i, c) ->
  load t < capacity t ->
  0 < current_fill c ->
  let collected := Z.min (Z.min (current_fill c) (capacity t - load t)) 10 in
  let c' := set_fill c (current_fill c - collected) in
  collect_block m t
  = (30 * collected + (if is_critical c' then 100 * collected else 0),
     <[i := c']> m, set_load t (load t + collected)).
Proof.
  intros Hat Hload Hfill collected c'. unfold collect_block. rewrite Hat.
  apply Z.ltb_lt in Hload, Hfill. rewrite Hload, Hfill.
  unfold collect_trash.
  replace (Z.min (current_fill c)
             (Z.min (Z.min (current_fill c) (capacity t - load t)) 10))
    with collected by (unfold collected; lia).
  fold c'. destruct (is_critical c'); f_equal; f_equal; lia.
Qed.

(** C5.  The code decides the bonus after the removal.  A truck (capacity
    35, load 0) collects at a container of capacity 30 and fill 27, which is
    critical, and the reward is [30 * 10]: no [100 * 10] is added, because
    the container is tested at fill 17. *)
Theorem collect_bonus_tested_after_removal :
  let c := mkContainer (1, 1) 30 27 0 in
  let t := mkTruck 35 0 (1, 1) ∅ (decimal 3 10) (decimal 15 100)
                   (decimal 9 10) 0 in
  is_critical c = true
  /\ fst (fst (execute [c] t Collect)) = 30 * 10
  /\ fst (snd (execute [c] t Collect)) = [mkContainer (1, 1) 30 17 0]
  /\ load (snd (snd (execute [c] t Collect))) = 10.
Proof.
  intros c t. repeat split; vm_compute; reflexivity.
Qed.

Lemma nearest_distance_irrefl (p c : pos) (cs : list pos) :
  (nearest_distance p c cs <? nearest_distance p c cs) = false.
Proof. apply Z.ltb_irrefl. Qed.

(** C6, as the code has it.  For every action but change_route, the reward
    is the other terms plus 2 exactly when the distance to the nearest
    critical container is strictly smaller at the position the action
    leaves the truck at than at the position it started from. *)
Theorem approach_reward_of_move (m : list TrashContainerAgent)
    (t : TrashTruckAgent) (a : action) :
  a <> ChangeRoute ->
  let t' := snd (snd (execute m t a)) in
  fst (fst (execute m t a))
  = approach_term (get_critical_containers m) (position t) (position t')
    + other_rewards m t a.
Proof.
  intros Ha. unfold execute, other_rewards.
  destruct a; try congruence; cbn zeta iota beta;
    try (cbn [snd fst position set_position];
         unfold approach_reward, approach_term; lia).
  destruct (collect_block m t) as [[r m'] t0].
  cbn [snd fst position set_position].
  unfold approach_reward, approach_term. lia.
Qed.

Lemma approach_reward_of_move_witness :
  let m := [mkContainer (1, 1) 30 27 0] in
  let t := mkTruck 35 0 (0, 1) ∅ (decimal 3 10) (decimal 15 100)
                   (decimal 9 10) 0 in
  fst (fst (execute m t Right))
  = approach_term (get_critical_containers m) (position t)
      (position (snd (snd (execute m t Right))))
    + other_rewards m t Right.
Proof.
  intros m t. apply (approach_reward_of_move m t Right). discriminate.
Defined.

(** C6 as stated fails for change_route: from [(0, 0)] with the critical
    container at [(1, 1)] the truck is rerouted to [(1, 0)], one step
    nearer, and the reward is the 10 of the reroute alone. *)
Lemma approach_reward_change_route_counterexample :
  let m := [mkContainer (1, 1) 30 27 0] in
  let t := mkTruck 35 0 (0, 0) ∅ (decimal 3 10) (decimal 15 100)
                   (decimal 9 10) 0 in
  let t' := snd (snd (execute m t ChangeRoute)) in
  get_critical_containers m = [(1, 1)]
  /\ position t' = (1, 0)
  /\ nearest_distance (position t') (1, 1) []
     < nearest_distance (position t) (1, 1) []
  /\ approach_term (get_critical_containers m) (position t) (position t') = 2
  /\ other_rewards m t ChangeRoute = 10
  /\ fst (fst (execute m t ChangeRoute)) = 10
  /\ fst (fst (execute m t ChangeRoute))
     <> approach_term (get_critical_containers m) (position t) (position t')
        + other_rewards m t ChangeRoute.
Proof.
  intros m t t'. repeat split; try (vm_compute; reflexivity).
  vm_compute. discriminate.
Qed.

(** ** TrashTruckAgent: the step that unloads *)

Lemma load_threshold (t : TrashTruckAgent) :
  Qc_leb (of_int (capacity t) * decimal 8 10) (of_int (load t))
  = (8 * capacity t <=? 10 * load t).
Proof. rewrite Qcmult_comm. apply scaled_threshold. Qed.

Lemma move_to_dump_at_dump (t : TrashTruckAgent) :
  In (position t) dump_points -> move_to_dump t = (Collect, set_load t 0).
Proof.
  unfold move_to_dump, dump_points.
  intros [<-|[<-|[<-|[<-|[]]]]]; reflexivity.
Qed.

(** A full truck standing on a dump point is unloaded by [choose_action]
    itself, before the action is executed. *)
Lemma choose_action_unloads (m : list TrashContainerAgent)
    (t : TrashTruckAgent) (st : qstate) (u : Qc) (rc : action) :
  In (position t) dump_points ->
  0 < capacity t ->
  load t = capacity t ->
  choose_action m t st u rc = (Collect, set_load t 0).
Proof.
  intros Hdump Hcap Hfull. unfold choose_action.
  replace (load t <? capacity t) with false
    by (symmetry; apply Z.ltb_ge; lia).
  replace (match get_container_at_position m (position t) with
           | Some (_, c) => (0 <? current_fill c) && false
           | None => false
           end) with false
    by (destruct (get_container_at_position m (position t)) as [[? ?]|];
        [now rewrite andb_false_r | reflexivity]).
  rewrite load_threshold.
  replace (8 * capacity t <=? 10 * load t) with true
    by (symmetry; apply Z.leb_le; lia).
  now apply move_to_dump_at_dump.
Qed.

Lemma approach_reward_stay (critical_containers : list pos) (p : pos) :
  approach_reward critical_containers p p = 0.
Proof.
  destruct critical_containers as [|c cs]; cbn; [reflexivity|].
  now rewrite nearest_distance_irrefl.
Qed.

(** C7, as the code has it.  On the step on which a truck begins at a dump
    point with its load at a positive capacity, and with nothing to collect
    there, the truck is unloaded when the action is chosen; the action is
    [collect], it collects nothing, and the reward is [-2] and the overflow
    penalty: the penalty of 20 for a full load is not part of it. *)
Theorem unload_step_reward (m : list TrashContainerAgent)
    (t : TrashTruckAgent) (u : Qc) (rc : action) :
  In (position t) dump_points ->
  0 < capacity t ->
  load t = capacity t ->
  (forall i c, get_container_at_position m (position t) = Some (i, c) ->
               current_fill c <= 0) ->
  decide_and_execute m t u rc
  = (state t, Collect,
     (-2 + overflow_penalty m, (position t, 0)),
     (m, set_load t 0))
  /\ full_penalty (set_load t 0) = 0.
Proof.
  intros Hdump Hcap Hfull Hnone.
  assert (Hpen : full_penalty (set_load t 0) = 0).
  { unfold full_penalty. cbn.
    replace (capacity t <=? 0) with false
      by (symmetry; apply Z.leb_gt; lia). reflexivity. }
  split; [|exact Hpen].
  unfold decide_and_execute.
  rewrite choose_action_unloads by assumption.
  assert (Hblock : collect_block m (set_load t 0) = (-2, m, set_load t 0)).
  { unfold collect_block. cbn [position set_load load capacity].
    destruct (get_container_at_position m (position t)) as [[i c]|] eqn:E;
      [|reflexivity].
    replace (0 <? capacity t) with true by (symmetry; apply Z.ltb_lt; lia).
    replace (0 <? current_fill c) with false
      by (symmetry; apply Z.ltb_ge; eauto).
    reflexivity. }
  unfold execute. rewrite Hblock, Hpen.
  cbn [position set_load move_target].
  replace (move_target Collect (position t)) with (position t)
    by (now destruct (position t)).
  rewrite approach_reward_stay. cbn.
  destruct t; cbn. reflexivity.
Qed.

Lemma unload_step_reward_witness :
  let m := [mkContainer (1, 1) 30 10 0; mkContainer (6, 1) 30 31 0] in
  let t := mkTruck 35 35 (7, 0) ∅ (decimal 3 10) (decimal 15 100)
                   (decimal 9 10) 1 in
  decide_and_execute m t (decimal 1 2) Up
  = (state t, Collect, (-2 + overflow_penalty m, (position t, 0)),
     (m, set_load t 0))
  /\ full_penalty (set_load t 0) = 0.
Proof.
  intros m t. apply (unload_step_reward m t (decimal 1 2) Up).
  - cbn. auto.
  - cbn. lia.
  - reflexivity.
  - intros i c H. vm_compute in H. discriminate.
Defined.

(** C7 as stated fails: a truck at the dump point [(0, 0)] with load 35 of
    35 and no overflowing container gets the reward [-2] on the step it
    unloads, not [-22]. *)
Lemma unload_step_penalty_counterexample :
  let m := [mkContainer (1, 1) 30 10 0] in
  let t := mkTruck 35 35 (0, 0) ∅ (decimal 3 10) (decimal 15 100)
                   (decimal 9 10) 0 in
  let '(_, a, (reward, _), (_, t')) :=
    decide_and_execute m t (decimal 1 2) Up in
  load t = capacity t
  /\ a = Collect
  /\ load t' = 0
  /\ reward = -2
  /\ reward <> -2 - 20.
Proof.
  vm_compute. repeat split; discriminate.
Qed.

(** ** GarbageEnvironment: the bounds on fill and load *)

Lemma find_container_lookup (m : list TrashContainerAgent) (p : pos)
    (k i : nat) (c : TrashContainerAgent) :
  find_container m p k = Some (i, c) ->
  exists j, i = (k + j)%nat /\ m !! j = Some c /\ pos_eqb (c_position c) p = true.
Proof.
  revert k. induction m as [|c0 m IH]; intros k; cbn; [discriminate|].
  destruct (pos_eqb (c_position c0) p) eqn:E.
  - intros [= <- <-]. exists 0%nat. repeat split; [lia | assumption].
  - intros H. destruct (IH _ H) as (j & -> & Hj & Hp).
    exists (S j). repeat split; [lia | assumption | assumption].
Qed.

(** The container [get_container_at_position] returns is the one stored at
    the index it returns. *)
Lemma get_container_at_position_lookup (m : list TrashContainerAgent)
    (p : pos) (i : nat) (c : TrashContainerAgent) :
  get_container_at_position m p = Some (i, c) -> m !! i = Some c.
Proof.
  intros H. apply find_container_lookup in H as (j & -> & Hj & _).
  exact Hj.
Qed.

Lemma valid_generation_nonneg (d : Qc) (g : Z) : valid_generation d g -> 0 <= g.
Proof. unfold valid_generation. destruct (Qc_leb _ _); lia. Qed.

Lemma container_step_inv (d u : Qc) (g : Z) (c : TrashContainerAgent) :
  0 <= g -> container_inv c -> container_inv (container_step d u g c).
Proof.
  unfold container_inv, container_step. intros Hg Hc.
  destruct (Qc_ltb u d); cbn; lia.
Qed.

Lemma collect_block_inv (m : list TrashContainerAgent) (t : TrashTruckAgent) :
  Forall container_inv m -> truck_inv t ->
  Forall container_inv (snd (fst (collect_block m t)))
  /\ truck_inv (snd (collect_block m t)).
Proof.
  intros Hm Ht. unfold collect_block.
  destruct (get_container_at_position m (position t)) as [[i c]|] eqn:E;
    [|now split].
  destruct (Z.ltb_spec (load t) (capacity t)); [|now split].
  destruct (Z.ltb_spec 0 (current_fill c)); [|now split].
  apply get_container_at_position_lookup in E.
  pose proof (proj1 (Forall_lookup _ _) Hm _ _ E) as Hc.
  unfold container_inv, truck_inv in *. cbn. split.
  - apply Forall_insert; [exact Hm|]. cbn. lia.
  - lia.
Qed.

Lemma choose_action_truck (m : list TrashContainerAgent) (t : TrashTruckAgent)
    (st : qstate) (u : Qc) (rc : action) :
  snd (choose_action m t st u rc) = t
  \/ snd (choose_action m t st u rc) = set_load t 0.
Proof.
  unfold choose_action, move_to_dump.
  repeat match goal with
         | |- context [if ?b then _ else _] => destruct b
         | |- context [match ?x with _ => _ end] => destruct x
         end; cbn; auto.
Qed.

Lemma execute_inv (m : list TrashContainerAgent) (t : TrashTruckAgent)
    (a : action) :
  Forall container_inv m -> truck_inv t ->
  Forall container_inv (fst (snd (execute m t a)))
  /\ truck_inv (snd (snd (execute m t a))).
Proof.
  intros Hm Ht. unfold execute.
  destruct a; cbn zeta iota beta;
    try (destruct (reroute_block _ _ _)); cbn; try (now split).
  pose proof (collect_block_inv m t Hm Ht) as [Hm' Ht'].
  destruct (collect_block m t) as [[r m'] t']. cbn in *. now split.
Qed.

Lemma update_q_fields (t t' : TrashTruckAgent) (s : qstate) (a : action)
    (reward : Z) (next_state : qstate) :
  update_q t s a reward next_state = Some t' ->
  load t' = load t /\ capacity t' = capacity t /\ position t' = position t.
Proof.
  unfold update_q. intros H.
  repeat match type of H with
         | context [?o ≫= _] =>
             let E := fresh in destruct o eqn:E; cbn in H; [|discriminate]
         end.
  injection H as <-. now cbn.
Qed.

Lemma truck_step_inv (m m' : list TrashContainerAgent)
    (t t' : TrashTruckAgent) (u : Qc) (rc : action) :
  Forall container_inv m -> truck_inv t ->
  truck_step m t u rc = Some (m', t') ->
  Forall container_inv m' /\ truck_inv t'.
Proof.
  intros Hm Ht. unfold truck_step, decide_and_execute.
  pose proof (choose_action_truck m t (state t) u rc) as Hch.
  destruct (choose_action m t (state t) u rc) as [a t1]. cbn in Hch.
  assert (Ht1 : truck_inv t1).
  { unfold truck_inv in *. destruct Hch as [->| ->]; cbn; lia. }
  pose proof (execute_inv m t1 a Hm Ht1) as [Hm2 Ht2].
  destruct (execute m t1 a) as [[reward next_state] [m2 t2]]. cbn in *.
  destruct (update_q t2 (state t) a reward next_state) as [t3|] eqn:E;
    cbn; [|discriminate].
  intros [= <- <-]. split; [exact Hm2|].
  apply update_q_fields in E as (Hl & Hc & _).
  unfold truck_inv in *. lia.
Qed.

Lemma trucks_step_inv (draw : nat -> Qc * action) (ts : list TrashTruckAgent) :
  forall (i : nat) (m m' : list TrashContainerAgent)
         (ts' : list TrashTruckAgent),
    Forall container_inv m -> Forall truck_inv ts ->
    trucks_step draw i m ts = Some (m', ts') ->
    Forall container_inv m' /\ Forall truck_inv ts'.
Proof.
  induction ts as [|t ts IH]; intros i m m' ts' Hm Hts; cbn.
  - intros [= <- <-]. now split.
  - apply Forall_cons in Hts as [Ht Hts].
    destruct (truck_step m t (fst (draw i)) (snd (draw i)))
      as [[m1 t1]|] eqn:E1; cbn; [|discriminate].
    destruct (truck_step_inv _ _ _ _ _ _ Hm Ht E1) as [Hm1 Ht1].
    destruct (trucks_step draw (S i) m1 ts) as [[m2 ts2]|] eqn:E2;
      cbn; [|discriminate].
    intros [= <- <-].
    destruct (IH _ _ _ _ Hm1 Hts E2) as [Hm2 Hts2].
    split; [exact Hm2 | now constructor].
Qed.

Lemma model_step_inv (p : Parameters) (cdraw : nat -> Qc * Z)
    (tdraw : nat -> Qc * action) (e e' : GarbageEnvironment) :
  (forall i, valid_generation (population_density p) (snd (cdraw i))) ->
  Forall container_inv (containers e) -> Forall truck_inv (trucks e) ->
  model_step p cdraw tdraw e = Some e' ->
  Forall container_inv (containers e') /\ Forall truck_inv (trucks e').
Proof.
  intros Hdraw Hm Hts. unfold model_step.
  set (m1 := imap _ (containers e)).
  assert (Hm1 : Forall container_inv m1).
  { apply Forall_lookup. intros i c Hi.
    apply list_lookup_imap_Some in Hi as (c0 & Hc0 & ->).
    apply container_step_inv.
    - eapply valid_generation_nonneg, Hdraw.
    - eapply (proj1 (Forall_lookup _ _)); eauto. }
  destruct (trucks_step tdraw 0 m1 (trucks e)) as [[m2 ts2]|] eqn:E;
    cbn; [|discriminate].
  intros [= <-]. cbn. eapply trucks_step_inv; eauto.
Qed.

Lemma load_q_table_fields (fs : gmap Z file) (t : TrashTruckAgent) :
  load (load_q_table fs t) = load t
  /\ capacity (load_q_table fs t) = capacity t.
Proof.
  unfold load_q_table. destruct (fs !! truck_id t) as [[|q eps runs]|];
    now cbn.
Qed.

Lemma setup_inv (p : Parameters) (fs : gmap Z file) (fill : nat -> Z) :
  10 <= container_limit p -> 0 < p_capacity p ->
  (forall i, 5 <= fill i <= 20) ->
  Forall container_inv (containers (setup p fs fill))
  /\ Forall truck_inv (trucks (setup p fs fill)).
Proof.
  intros Hlimit Hcap Hfill. unfold setup. cbn [containers trucks]. split.
  - apply Forall_lookup. intros i c Hi.
    apply list_lookup_imap_Some in Hi as (q & _ & ->).
    unfold container_inv. cbn. specialize (Hfill i). lia.
  - apply Forall_lookup. intros i t Hi.
    apply list_lookup_imap_Some in Hi as (q & _ & ->).
    unfold truck_inv, truck_setup. cbn.
    destruct (load_q_table_fields fs
                {| capacity := p_capacity p; load := 0; position := (0, 0);
                   q_table := ∅; epsilon := p_epsilon p; alpha := p_alpha p;
                   gamma := p_gamma p; truck_id := 0 |}) as [-> ->].
    cbn. lia.
Qed.

(** C3, as the code has it.  When the container capacity is at least 10
    (so that the initial fill, drawn from 5 to 20, is within twice the
    capacity) and the truck capacity is positive, every container of every
    state reachable from [setup] by full steps has
    [0 <= current_fill <= 2 * capacity], and every truck has
    [0 <= load <= capacity]. *)
Theorem reachable_bounds (p : Parameters) (e : GarbageEnvironment) :
  10 <= container_limit p ->
  0 < p_capacity p ->
  reachable p e ->
  Forall container_inv (containers e) /\ Forall truck_inv (trucks e).
Proof.
  intros Hlimit Hcap Hreach.
  induction Hreach as [fs fill Hfill | e e' cdraw tdraw _ IH Hdraw Hstep].
  - now apply setup_inv.
  - destruct IH as [Hm Hts]. eapply model_step_inv; eauto.
Qed.

Lemma reachable_bounds_witness :
  let fill := fun i : nat => if (i =? 2)%nat then 20 else 12 in
  let cdraw := fun i : nat => (decimal 1 10, 3) in
  let tdraw := fun i : nat => (decimal 1 2, Up) in
  exists e : GarbageEnvironment,
    model_step parameters cdraw tdraw (setup parameters ∅ fill) = Some e
    /\ Forall container_inv (containers e)
    /\ Forall truck_inv (trucks e).
Proof.
  intros fill cdraw tdraw.
  destruct (model_step parameters cdraw tdraw (setup parameters ∅ fill))
    as [e|] eqn:E; [|vm_compute in E; discriminate].
  exists e. split; [reflexivity|].
  apply (reachable_bounds parameters e).
  - cbn. lia.
  - cbn. lia.
  - apply (reachable_step parameters (setup parameters ∅ fill) e cdraw tdraw).
    + apply reachable_setup. intros i. unfold fill.
      destruct (i =? 2)%nat; lia.
    + intros i. vm_compute. split; discriminate.
    + exact E.
Defined.

(** C3 as stated fails for a small container capacity: with capacity 5 the
    initial fill 20 is above [2 * 5], and it still is after a full step on
    which nothing is generated and no truck has reached the container. *)
Lemma reachable_bounds_counterexample :
  let p := mkParameters 50 35 (decimal 3 10) (decimal 15 100) (decimal 9 10)
                        5 (decimal 2 10) in
  exists e : GarbageEnvironment,
    reachable p e
    /\ 0 < container_limit p
    /\ 0 < p_capacity p
    /\ ~ Forall container_inv (containers e).
Proof.
  intros p.
  set (fill := fun i : nat => 20).
  set (cdraw := fun i : nat => (decimal 1 2, 1)).
  set (tdraw := fun i : nat => (decimal 1 2, Up)).
  destruct (model_step p cdraw tdraw (setup p ∅ fill))
    as [e|] eqn:E; [|vm_compute in E; discriminate].
  exists e. split; [|split; [|split]].
  - apply (reachable_step p (setup p ∅ fill) e cdraw tdraw).
    + apply reachable_setup. intros i. unfold fill. lia.
    + intros i. vm_compute. split; discriminate.
    + exact E.
  - cbn. lia.
  - cbn. lia.
  - vm_compute in E. injection E as <-. intros H.
    apply Forall_inv in H. unfold container_inv in H. cbn in H. lia.
Qed.

(** ** GarbageEnvironment: a step returns

    [update_q] is the only statement of a step that can raise, and it does
    not on tables of the shape it creates: from [setup] with no file, or with
    files this program saved, every step returns. *)

Lemma update_q_returns (t : TrashTruckAgent) (s : qstate) (a : action)
    (reward : Z) (next_state : qstate) :
  wf_q_table (q_table t) ->
  exists t', update_q t s a reward next_state = Some t'
             /\ wf_q_table (q_table t').
Proof.
  intros Hwf. unfold update_q.
  set (q := init_state next_state (init_state s (q_table t))).
  assert (Hq : wf_q_table q) by (do 2 apply wf_init_state; exact Hwf).
  assert (Hs : is_Some (q !! s)).
  { unfold q. rewrite init_state_lookup.
    destruct (init_state_self s (q_table t)) as [row ->]. eauto. }
  destruct Hs as [row Hrow].
  destruct (init_state_self next_state (init_state s (q_table t)))
    as [next_row Hnext]. fold q in Hnext.
  destruct (dict_get_wf row a (Hq _ _ Hrow)) as [old_value Hold].
  destruct (wf_row_inv _ (Hq _ _ Hnext)) as (v1 & v2 & v3 & v4 & v5 & v6 & ->).
  rewrite Hrow. cbn. rewrite Hold. cbn. rewrite Hnext. cbn.
  eexists. split; [reflexivity|].
  intros x r. cbn. destruct (decide (s = x)) as [<-|Hx].
  - rewrite lookup_insert_eq. intros [= <-].
    rewrite dict_set_keys by eauto. eauto.
  - rewrite lookup_insert_ne by assumption. apply Hq.
Qed.

Lemma collect_block_q_table (m : list TrashContainerAgent)
    (t : TrashTruckAgent) :
  q_table (snd (collect_block m t)) = q_table t.
Proof.
  unfold collect_block.
  destruct (get_container_at_position m (position t)) as [[i c]|];
    [|reflexivity].
  destruct (load t <? capacity t); [|reflexivity].
  destruct (0 <? current_fill c); reflexivity.
Qed.

Lemma execute_q_table (m : list TrashContainerAgent) (t : TrashTruckAgent)
    (a : action) :
  q_table (snd (snd (execute m t a))) = q_table t.
Proof.
  unfold execute.
  destruct a; cbn zeta iota beta;
    try (destruct (reroute_block _ _ _)); cbn; try reflexivity.
  pose proof (collect_block_q_table m t) as H.
  destruct (collect_block m t) as [[r m'] t']. exact H.
Qed.

Lemma truck_step_returns (m : list TrashContainerAgent) (t : TrashTruckAgent)
    (u : Qc) (rc : action) :
  wf_q_table (q_table t) ->
  exists m' t', truck_step m t u rc = Some (m', t')
                /\ wf_q_table (q_table t').
Proof.
  intros Hwf. unfold truck_step, decide_and_execute.
  pose proof (choose_action_truck m t (state t) u rc) as Hch.
  destruct (choose_action m t (state t) u rc) as [a t1]. cbn in Hch.
  assert (Ht1 : wf_q_table (q_table t1)) by (now destruct Hch as [->| ->]).
  pose proof (execute_q_table m t1 a) as Hex.
  destruct (execute m t1 a) as [[reward next_state] [m2 t2]]. cbn in *.
  rewrite <- Hex in Ht1.
  destruct (update_q_returns t2 (state t) a reward next_state Ht1)
    as (t3 & -> & Ht3).
  cbn. eauto.
Qed.

Lemma trucks_step_returns (draw : nat -> Qc * action)
    (ts : list TrashTruckAgent) :
  forall (i : nat) (m : list TrashContainerAgent),
    Forall (fun t => wf_q_table (q_table t)) ts ->
    exists m' ts', trucks_step draw i m ts = Some (m', ts')
                   /\ Forall (fun t => wf_q_table (q_table t)) ts'.
Proof.
  induction ts as [|t ts IH]; intros i m Hts; cbn.
  - eauto.
  - apply Forall_cons in Hts as [Ht Hts].
    destruct (truck_step_returns m t (fst (draw i)) (snd (draw i)) Ht)
      as (m1 & t1 & -> & Ht1). cbn.
    destruct (IH (S i) m1 Hts) as (m2 & ts2 & -> & Hts2). cbn.
    eexists _, _. split; [reflexivity | now constructor].
Qed.

(** [step] returns on an environment whose trucks have tables of the shape
    [update_q] creates, and leaves such an environment. *)
Lemma model_step_returns (p : Parameters) (cdraw : nat -> Qc * Z)
    (tdraw : nat -> Qc * action) (e : GarbageEnvironment) :
  Forall (fun t => wf_q_table (q_table t)) (trucks e) ->
  exists e', model_step p cdraw tdraw e = Some e'
             /\ Forall (fun t => wf_q_table (q_table t)) (trucks e').
Proof.
  intros Hts. unfold model_step.
  destruct (trucks_step_returns tdraw (trucks e) 0%nat
              (imap (fun i c =>
                       container_step (population_density p)
                         (fst (cdraw i)) (snd (cdraw i)) c) (containers e)) Hts)
    as (m' & ts' & -> & Hts').
  cbn. eauto.
Qed.

(** [setup] gives such an environment when the file of truck 0, if there is
    one, holds a table of that shape. *)
Lemma setup_wf (p : Parameters) (fs : gmap Z file) (fill : nat -> Z) :
  (forall q eps runs, fs !! 0 = Some (Pickled q eps runs) -> wf_q_table q) ->
  Forall (fun t => wf_q_table (q_table t)) (trucks (setup p fs fill)).
Proof.
  intros Hfs. unfold setup. cbn [trucks].
  apply Forall_lookup. intros i t Hi.
  apply list_lookup_imap_Some in Hi as (q & _ & ->). cbn.
  unfold truck_setup, load_q_table. cbn [truck_id].
  destruct (fs !! 0) as [[|q0 eps runs]|] eqn:E; cbn.
  - apply wf_q_table_empty.
  - eapply Hfs. reflexivity.
  - apply wf_q_table_empty.
Qed.

(** ** The rational thresholds against binary64 *)

Lemma thresholds_agree_spec (n : nat) (cap level : Z) :
  thresholds_agree n = true ->
  0 <= cap < Z.of_nat n -> 0 <= level <= 2 * cap ->
  agree_at cap level = true.
Proof.
  unfold thresholds_agree. intros H Hcap Hlevel.
  rewrite List.forallb_forall in H.
  specialize (H (Z.to_nat cap)). cbv beta in H.
  rewrite List.forallb_forall in H.
  specialize (fun H1 H2 => H H1 (Z.to_nat level) H2).
  rewrite !Z2Nat.id in H by lia.
  apply H; apply in_seq; lia.
Qed.

Lemma thresholds_agree_400 : thresholds_agree 401 = true.
Proof. vm_compute. reflexivity. Qed.

(** For every capacity up to 400 and every level from 0 to twice the
    capacity, the three threshold tests give in binary64 what they give on
    the rationals. *)
Lemma binary64_thresholds (cap level : Z) :
  0 <= cap <= 400 -> 0 <= level <= 2 * cap ->
  critical64 cap level = Qc_leb (decimal 9 10 * of_int cap) (of_int level)
  /\ medium64 cap level = Qc_leb (decimal 7 10 * of_int cap) (of_int level)
  /\ dump64 cap level = Qc_leb (of_int cap * decimal 8 10) (of_int level).
Proof.
  intros Hcap Hlevel.
  rewrite (Qcmult_comm (of_int cap)), !scaled_threshold.
  assert (H : agree_at cap level = true).
  { apply (thresholds_agree_spec 401 cap level thresholds_agree_400); lia. }
  unfold agree_at in H.
  apply andb_prop in H as [H H3]. apply andb_prop in H as [H1 H2].
  apply Bool.eqb_prop in H1, H2, H3.
  exact (conj H1 (conj H2 H3)).
Qed.

(** ** The end-to-end scenario of the specification *)

(** One container at fill 20 of 30 and one truck at the same position,
    capacity 35, load 0: the truck chooses [collect], takes 10, and the
    reward is [30 * 10]. *)
Example end_to_end_scenario :
  let m := [mkContainer (1, 1) 30 20 0] in
  let t := mkTruck 35 0 (1, 1) ∅ (decimal 3 10) (decimal 15 100)
                   (decimal 9 10) 0 in
  let '(_, a, (reward, next_state), (m', t')) :=
    decide_and_execute m t (decimal 1 2) Up in
  a = Collect
  /\ map current_fill m' = [10]
  /\ load t' = 10
  /\ reward = 300
  /\ next_state = ((1, 1), 10).
Proof. vm_compute. repeat split. Qed.

(** * Further properties of the code *)

(** ** TrashContainerAgent.step *)

(** X1. A container within its soft cap never loses trash in [step]: with a
    generated amount [g >= 0] the fill grows by at most [g], stays within
    twice the capacity, and capacity and position are untouched. *)
Theorem container_step_grows (d u : Qc) (g : Z) (c : TrashContainerAgent) :
  0 <= g ->
  current_fill c <= 2 * c_capacity c ->
  let c' := container_step d u g c in
  current_fill c <= current_fill c' <= current_fill c + g
  /\ current_fill c' <= 2 * c_capacity c'
  /\ c_capacity c' = c_capacity c
  /\ c_position c' = c_position c.
Proof.
  intros Hg Hcap c'. unfold c', container_step.
  destruct (Qc_ltb u d); cbn [set_fill current_fill c_capacity c_position];
    repeat split; lia.
Qed.

Lemma container_step_grows_witness :
  let c := mkContainer (1, 1) 30 58 0 in
  let c' := container_step (decimal 2 10) (decimal 1 10) 3 c in
  current_fill c <= current_fill c' <= current_fill c + 3
  /\ current_fill c' <= 2 * c_capacity c'
  /\ c_capacity c' = c_capacity c
  /\ c_position c' = c_position c.
Proof.
  intros c.
  apply (container_step_grows (decimal 2 10) (decimal 1 10) 3 c);
    cbn; lia.
Defined.

(** X2. A container above its soft cap is cut down by [step]: when trash is
    generated ([u] below the density) on a container holding more than twice
    its capacity, the fill becomes exactly twice the capacity. *)
Theorem container_step_cuts_overfill (d u : Qc) (g : Z)
    (c : TrashContainerAgent) :
  Qc_ltb u d = true ->
  0 <= g ->
  2 * c_capacity c < current_fill c ->
  current_fill (container_step d u g c) = 2 * c_capacity c.
Proof.
  intros Hu Hg Hover. unfold container_step. rewrite Hu. cbn. lia.
Qed.

Lemma container_step_cuts_overfill_witness :
  current_fill
    (container_step (decimal 2 10) (decimal 1 10) 1 (mkContainer (1, 1) 5 20 0))
  = 2 * 5.
Proof.
  apply (container_step_cuts_overfill (decimal 2 10) (decimal 1 10) 1
           (mkContainer (1, 1) 5 20 0)).
  - vm_compute. reflexivity.
  - lia.
  - cbn. lia.
Defined.

(** ** The queries of the environment *)

Lemma pos_eqb_eq (p q : pos) : pos_eqb p q = true <-> p = q.
Proof.
  destruct p as [x y], q as [x' y']. unfold pos_eqb. cbn.
  rewrite andb_true_iff, !Z.eqb_eq. split; [intros [-> ->] | intros [= -> ->]];
    auto.
Qed.

Lemma find_container_first (m : list TrashContainerAgent) (p : pos)
    (k i : nat) (c : TrashContainerAgent) :
  find_container m p k = Some (i, c) ->
  exists j, i = (k + j)%nat /\ m !! j = Some c /\ c_position c = p
            /\ forall j' c', (j' < j)%nat -> m !! j' = Some c' ->
                             c_position c' <> p.
Proof.
  revert k. induction m as [|c0 m IH]; intros k; cbn; [discriminate|].
  destruct (pos_eqb (c_position c0) p) eqn:E.
  - intros [= <- <-]. exists 0%nat. apply pos_eqb_eq in E.
    repeat split; [lia | assumption | intros; lia].
  - intros H. destruct (IH _ H) as (j & -> & Hj & Hp & Hfirst).
    exists (S j). repeat split; [lia | assumption | assumption |].
    intros [|j'] c' Hlt; cbn.
    + intros [= <-] Heq. apply pos_eqb_eq in Heq. congruence.
    + apply Hfirst. lia.
Qed.

Lemma find_container_none (m : list TrashContainerAgent) (p : pos) (k : nat) :
  find_container m p k = None <-> forall c, In c m -> c_position c <> p.
Proof.
  revert k. induction m as [|c0 m IH]; intros k; cbn.
  - split; [intros _ c [] | reflexivity].
  - destruct (pos_eqb (c_position c0) p) eqn:E.
    + apply pos_eqb_eq in E. split; [discriminate|].
      intros H. exfalso. apply (H c0); auto.
    + rewrite IH. split.
      * intros H c [<-|Hc]; [|auto].
        intros Heq. apply pos_eqb_eq in Heq. congruence.
      * intros H c Hc. apply H. auto.
Qed.

(** X3. [get_container_at_position] returns the first container standing at
    the position, with its index in the list, and returns nothing exactly
    when no container stands there. *)
Theorem get_container_at_position_spec (m : list TrashContainerAgent)
    (p : pos) :
  match get_container_at_position m p with
  | Some (i, c) =>
      m !! i = Some c /\ c_position c = p
      /\ forall j c', (j < i)%nat -> m !! j = Some c' -> c_position c' <> p
  | None => forall c, In c m -> c_position c <> p
  end.
Proof.
  unfold get_container_at_position.
  destruct (find_container m p 0) as [[i c]|] eqn:E.
  - apply find_container_first in E as (j & -> & Hj & Hp & Hfirst).
    cbn. auto.
  - exact (proj1 (find_container_none m p 0%nat) E).
Qed.

(** X4. When every container has a positive capacity, the overflowing
    containers are among the critical ones: every position reported by
    [get_overflowing_containers] is reported by [get_critical_containers],
    and there are no more of the former than of the latter. *)
Theorem overflowing_among_critical (m : list TrashContainerAgent) :
  Forall (fun c => 0 < c_capacity c) m ->
  (forall p, In p (get_overflowing_containers m) ->
             In p (get_critical_containers m))
  /\ (length (get_overflowing_containers m)
      <= length (get_critical_containers m))%nat.
Proof.
  unfold get_overflowing_containers, get_critical_containers.
  induction 1 as [|c m Hc Hm [IHin IHlen]]; cbn; [split; [tauto | lia]|].
  assert (Himp : is_overflowing c = true -> is_critical c = true).
  { rewrite is_critical_spec. unfold is_overflowing. rewrite !Z.leb_le. lia. }
  destruct (is_overflowing c) eqn:Eo.
  - rewrite Himp by reflexivity. cbn. split; [|lia].
    intros p [<-|Hp]; auto.
  - destruct (is_critical c); cbn; split; auto; lia.
Qed.

Lemma overflowing_among_critical_witness :
  let m := [mkContainer (1, 1) 30 31 0; mkContainer (6, 1) 30 28 0;
            mkContainer (2, 5) 30 3 0] in
  (forall p, In p (get_overflowing_containers m) ->
             In p (get_critical_containers m))
  /\ (length (get_overflowing_containers m)
      <= length (get_critical_containers m))%nat.
Proof.
  intros m. apply (overflowing_among_critical m).
  repeat constructor.
Defined.

(** ** Nearest targets *)

Lemma min_key_fold {A : Type} (key : A -> Z) (l : list A) (x : A) :
  let r := fold_left (fun best y => if key y <? key best then y else best) l x in
  In r (x :: l) /\ key r <= key x /\ forall y, In y l -> key r <= key y.
Proof.
  revert x. induction l as [|z l IH]; intros x; cbn.
  - repeat split; [auto | lia | intros y []].
  - destruct (Z.ltb_spec (key z) (key x)) as [Hlt|Hge].
    + destruct (IH z) as (Hin & Hle & Hall). repeat split.
      * destruct Hin as [<-|Hin]; auto.
      * lia.
      * intros y [<-|Hy]; auto.
    + destruct (IH x) as (Hin & Hle & Hall). repeat split.
      * destruct Hin as [<-|Hin]; auto.
      * lia.
      * intros y [<-|Hy]; [lia | auto].
Qed.

(** [min(x :: l, key=key)] is an element of least key. *)
Lemma min_key_spec {A : Type} (key : A -> Z) (x : A) (l : list A) :
  In (min_key key x l) (x :: l)
  /\ forall y, In y (x :: l) -> key (min_key key x l) <= key y.
Proof.
  destruct (min_key_fold key l x) as (Hin & Hle & Hall).
  split; [exact Hin|]. intros y [<-|Hy]; auto.
Qed.

Lemma min_of_fold (l : list Z) (x : Z) :
  fold_left Z.min l x <= x
  /\ (forall y, In y l -> fold_left Z.min l x <= y)
  /\ In (fold_left Z.min l x) (x :: l).
Proof.
  revert x. induction l as [|z l IH]; intros x; cbn.
  - repeat split; [lia | intros y [] | auto].
  - destruct (IH (Z.min x z)) as (Hle & Hall & Hin). repeat split.
    + lia.
    + intros y [<-|Hy]; [lia | auto].
    + destruct Hin as [Heq|Hin]; [|auto].
      rewrite <- Heq. destruct (Z.min_spec x z) as [[_ ->]|[_ ->]]; auto.
Qed.

(** The nearest distance is the distance to the target [min_key] picks. *)
Lemma nearest_distance_min_key (p c : pos) (cs : list pos) :
  nearest_distance p c cs = manhattan p (min_key (manhattan p) c cs).
Proof.
  unfold nearest_distance, min_of.
  destruct (min_of_fold (map (manhattan p) cs) (manhattan p c))
    as (Hle & Hall & Hin).
  destruct (min_key_spec (manhattan p) c cs) as [Hkin Hkall].
  apply Z.le_antisymm.
  - destruct Hkin as [<-|Hk]; [exact Hle|].
    apply Hall. now apply in_map.
  - destruct Hin as [<-|Hin]; [apply Hkall; now left|].
    apply in_map_iff in Hin as (q & <- & Hq). apply Hkall. now right.
Qed.

Lemma move_target_distance (a : action) (p q : pos) :
  manhattan p q - 1 <= manhattan (move_target a p) q <= manhattan p q + 1.
Proof.
  destruct p as [x y], q as [x' y']. unfold manhattan, move_target.
  destruct a; repeat match goal with
                     | |- context [if ?b then _ else _] => destruct b
                     end; cbn; lia.
Qed.

Lemma nearest_distance_lower (p p' c : pos) (cs : list pos) :
  (forall q, manhattan p q - 1 <= manhattan p' q) ->
  nearest_distance p c cs - 1 <= nearest_distance p' c cs.
Proof.
  intros Hstep. rewrite (nearest_distance_min_key p').
  set (q := min_key (manhattan p') c cs).
  assert (Hq : In q (c :: cs)) by apply min_key_spec.
  rewrite nearest_distance_min_key.
  pose proof (proj2 (min_key_spec (manhattan p) c cs) q Hq).
  specialize (Hstep q). lia.
Qed.

Lemma heading_none (p target : pos) : heading p target = None <-> p = target.
Proof.
  destruct p as [x y], target as [x' y']. unfold heading.
  destruct (Z.ltb_spec x x'), (Z.ltb_spec x' x), (Z.ltb_spec y y'),
    (Z.ltb_spec y' y); split; try discriminate; try (intros [= ? ?]; lia);
    try (intros _; f_equal; lia); try reflexivity.
Qed.

(** The heading is a grid move that brings the truck one step nearer to a
    target of the grid. *)
Lemma heading_approaches (p target : pos) (a : action) :
  in_grid target ->
  heading p target = Some a ->
  is_move a /\ manhattan (move_target a p) target = manhattan p target - 1.
Proof.
  destruct p as [x y], target as [x' y']. unfold in_grid, heading, is_move.
  cbn [fst snd]. intros [Hx Hy].
  destruct (Z.ltb_spec x x'); [|destruct (Z.ltb_spec x' x);
    [|destruct (Z.ltb_spec y y'); [|destruct (Z.ltb_spec y' y)]]];
    intros [= <-]; (split; [tauto|]); unfold manhattan, move_target; cbn.
  - destruct (Z.ltb_spec x 7); cbn; lia.
  - destruct (Z.ltb_spec 0 x); cbn; lia.
  - destruct (Z.ltb_spec y 7); cbn; lia.
  - destruct (Z.ltb_spec 0 y); cbn; lia.
Qed.

Lemma approach_nearest (p c : pos) (cs : list pos) (a : action) :
  Forall in_grid (c :: cs) ->
  heading p (min_key (manhattan p) c cs) = Some a ->
  is_move a
  /\ nearest_distance (move_target a p) c cs = nearest_distance p c cs - 1.
Proof.
  intros Hgrid Hhead.
  set (target := min_key (manhattan p) c cs) in *.
  assert (Hin : In target (c :: cs)) by apply min_key_spec.
  assert (Htarget : in_grid target)
    by (eapply (proj1 (List.Forall_forall _ _)); eassumption).
  destruct (heading_approaches p target a Htarget Hhead) as [Hmove Hdist].
  split; [exact Hmove|]. apply Z.le_antisymm.
  - rewrite (nearest_distance_min_key (move_target a p)).
    pose proof (proj2 (min_key_spec (manhattan (move_target a p)) c cs)
                  target Hin).
    rewrite (nearest_distance_min_key p). fold target. lia.
  - apply nearest_distance_lower. intros q. apply move_target_distance.
Qed.

(** ** TrashTruckAgent.move_to_dump *)

(** X5. [move_to_dump] unloads the truck exactly at a dump point, where it
    answers [collect]; anywhere else it leaves the truck as it is and answers
    a grid move that brings it one step nearer to the nearest dump point. *)
Theorem move_to_dump_spec (t : TrashTruckAgent) :
  (In (position t) dump_points /\ move_to_dump t = (Collect, set_load t 0))
  \/ (~ In (position t) dump_points
      /\ exists a, move_to_dump t = (a, t) /\ is_move a
         /\ nearest_distance (move_target a (position t))
              (0, 0) [(7, 0); (0, 7); (7, 7)]
            = nearest_distance (position t) (0, 0) [(7, 0); (0, 7); (7, 7)]
              - 1).
Proof.
  unfold move_to_dump.
  set (target := min_key (manhattan (position t)) (0, 0) [(7, 0); (0, 7); (7, 7)]).
  assert (Hin : In target dump_points) by apply min_key_spec.
  destruct (heading (position t) target) as [a|] eqn:E.
  - assert (Ha : is_move a
                 /\ nearest_distance (move_target a (position t))
                      (0, 0) [(7, 0); (0, 7); (7, 7)]
                    = nearest_distance (position t) (0, 0)
                        [(7, 0); (0, 7); (7, 7)] - 1).
    { apply approach_nearest; [|exact E]. repeat constructor; cbn; lia. }
    right. split.
    + intros Hdump. pose proof (move_to_dump_at_dump t Hdump) as H.
      unfold move_to_dump in H. fold target in H. rewrite E in H.
      injection H as -> _.
      destruct Ha as [[?|[?|[?|?]]] _]; discriminate.
    + exists a. split; [reflexivity | exact Ha].
  - left. apply heading_none in E. rewrite E. auto.
Qed.

(** ** TrashTruckAgent.choose_action: the rules after the first *)

Lemma move_to_dump_result (t : TrashTruckAgent) :
  (move_to_dump t = (Collect, set_load t 0) /\ In (position t) dump_points)
  \/ (exists a, move_to_dump t = (a, t) /\ a <> Collect).
Proof.
  unfold move_to_dump.
  set (target := min_key (manhattan (position t)) (0, 0) [(7, 0); (0, 7); (7, 7)]).
  assert (Hin : In target dump_points) by apply min_key_spec.
  destruct (heading (position t) target) as [a|] eqn:E.
  - right. exists a. split; [reflexivity|].
    destruct (position t) as [x y], target as [x' y']. unfold heading in E.
    repeat match type of E with
           | context [if ?b then _ else _] => destruct b
           end; try discriminate; injection E as <-; discriminate.
  - left. apply heading_none in E. rewrite E. auto.
Qed.

(** X6. [choose_action] changes the truck in one case only: a truck standing
    on a dump point with a load of at least 80% of its capacity is unloaded,
    and the action is then [collect].  In every other case the truck comes
    back as it was. *)
Theorem choose_action_unload_guard (m : list TrashContainerAgent)
    (t : TrashTruckAgent) (st : qstate) (u : Qc) (rc : action) :
  snd (choose_action m t st u rc) = t
  \/ (choose_action m t st u rc = (Collect, set_load t 0)
      /\ In (position t) dump_points
      /\ 8 * capacity t <= 10 * load t).
Proof.
  unfold choose_action.
  destruct (match get_container_at_position m (position t) with
            | Some (_, c) => (0 <? current_fill c) && (load t <? capacity t)
            | None => false
            end); [now left|].
  rewrite load_threshold.
  destruct (Z.leb_spec (8 * capacity t) (10 * load t)) as [Hfull|Hfree].
  - destruct (move_to_dump_result t) as [[-> Hdump]|(a & -> & _)]; auto.
  - left. destruct (get_critical_containers m); [|reflexivity].
    destruct (Qc_ltb u (epsilon t)); reflexivity.
Qed.

Lemma NoDup_map_inj {A B : Type} (f : A -> B) (l : list A) (x y : A) :
  NoDup (map f l) -> In x l -> In y l -> f x = f y -> x = y.
Proof.
  induction l as [|z l IH]; cbn; [intros _ []|].
  intros Hnd Hx Hy Hf. apply NoDup_cons in Hnd as [Hz Hnd].
  destruct Hx as [<-|Hx], Hy as [<-|Hy]; auto.
  - exfalso. apply Hz. rewrite Hf. apply list_elem_of_In. now apply in_map.
  - exfalso. apply Hz. rewrite <- Hf. apply list_elem_of_In. now apply in_map.
Qed.

Lemma in_critical_containers (m : list TrashContainerAgent) (q : pos) :
  In q (get_critical_containers m)
  <-> exists k, In k m /\ is_critical k = true /\ c_position k = q.
Proof.
  unfold get_critical_containers. rewrite in_map_iff. split.
  - intros (k & Hq & Hk). apply filter_In in Hk as [Hk Hcrit]. eauto.
  - intros (k & Hk & Hcrit & Hq). exists k. split; [exact Hq|].
    apply filter_In. auto.
Qed.

(** X7. When nothing can be collected where the truck stands, its load is
    below 80% of its capacity and some container is critical, [choose_action]
    answers a grid move, never [collect], provided the containers stand at
    distinct positions of the grid and have positive capacities; the move
    brings the truck exactly one step nearer to the nearest critical
    container, and executing it earns the approach reward of 2. *)
Theorem choose_action_approaches (m : list TrashContainerAgent)
    (t : TrashTruckAgent) (st : qstate) (u : Qc) (rc : action)
    (c : pos) (cs : list pos) :
  (forall i k, get_container_at_position m (position t) = Some (i, k) ->
               current_fill k <= 0) ->
  10 * load t < 8 * capacity t ->
  Forall (fun k => 0 < c_capacity k /\ in_grid (c_position k)) m ->
  NoDup (map c_position m) ->
  get_critical_containers m = c :: cs ->
  exists a,
    choose_action m t st u rc = (a, t)
    /\ is_move a
    /\ nearest_distance (move_target a (position t)) c cs
       = nearest_distance (position t) c cs - 1
    /\ approach_reward (c :: cs) (position t) (move_target a (position t)) = 2.
Proof.
  intros Hnone Hload Hm Hnd Hcrit.
  assert (Hgrid : Forall in_grid (c :: cs)).
  { rewrite <- Hcrit. apply List.Forall_forall. intros q Hq.
    apply in_critical_containers in Hq as (k & Hk & _ & <-).
    now apply (proj1 (List.Forall_forall _ _) Hm k Hk). }
  assert (Hhead : exists a,
             heading (position t) (min_key (manhattan (position t)) c cs)
             = Some a).
  { destruct (heading _ _) as [a|] eqn:E; [eauto|]. exfalso.
    apply heading_none in E.
    assert (Hin : In (position t) (get_critical_containers m)).
    { rewrite Hcrit, E at 1. apply min_key_spec. }
    apply in_critical_containers in Hin as (k & Hk & Hkcrit & Hkpos).
    pose proof (get_container_at_position_lookup m (position t)) as Hlook.
    unfold get_container_at_position in *.
    destruct (find_container m (position t) 0) as [[i k']|] eqn:Ef.
    - pose proof Ef as Ef'.
      apply find_container_first in Ef' as (j & _ & Hj & Hpos' & _).
      assert (k' = k) as ->.
      { apply (NoDup_map_inj c_position m); auto; [|congruence].
        apply list_elem_of_In. eapply list_elem_of_lookup_2. exact Hj. }
      specialize (Hnone i k eq_refl).
      rewrite is_critical_spec in Hkcrit. apply Z.leb_le in Hkcrit.
      pose proof (proj1 (List.Forall_forall _ _) Hm k Hk) as [Hcap _]. lia.
    - apply (proj1 (find_container_none m (position t) 0%nat) Ef k Hk Hkpos). }
  destruct Hhead as [a Hhead].
  destruct (approach_nearest (position t) c cs a Hgrid Hhead) as [Hmove Hdist].
  exists a. repeat split; try assumption.
  - unfold choose_action.
    replace (match get_container_at_position m (position t) with
             | Some (_, k) => (0 <? current_fill k) && (load t <? capacity t)
             | None => false
             end) with false.
    + rewrite load_threshold.
      replace (8 * capacity t <=? 10 * load t) with false
        by (symmetry; apply Z.leb_gt; lia).
      rewrite Hcrit. unfold move_to_critical. now rewrite Hhead.
    + destruct (get_container_at_position m (position t)) as [[i k]|] eqn:E;
        [|reflexivity].
      specialize (Hnone i k eq_refl).
      replace (0 <? current_fill k) with false
        by (symmetry; apply Z.ltb_ge; lia). reflexivity.
  - unfold approach_reward. rewrite Hdist.
    replace (nearest_distance (position t) c cs - 1
             <? nearest_distance (position t) c cs) with true
      by (symmetry; apply Z.ltb_lt; lia). reflexivity.
Qed.

Lemma choose_action_approaches_witness :
  let m := [mkContainer (1, 1) 30 28 0; mkContainer (6, 1) 30 5 0] in
  let t := mkTruck 35 10 (0, 0) ∅ (decimal 3 10) (decimal 15 100)
                   (decimal 9 10) 0 in
  exists a,
    choose_action m t (state t) (decimal 1 2) Up = (a, t)
    /\ is_move a
    /\ nearest_distance (move_target a (position t)) (1, 1) []
       = nearest_distance (position t) (1, 1) [] - 1
    /\ approach_reward [(1, 1)] (position t) (move_target a (position t)) = 2.
Proof.
  intros m t.
  apply (choose_action_approaches m t (state t) (decimal 1 2) Up (1, 1) []).
  - intros i k H. vm_compute in H. discriminate.
  - cbn. lia.
  - repeat constructor; cbn; lia.
  - cbn. apply NoDup_cons. split; [|apply NoDup_singleton].
    rewrite list_elem_of_singleton. discriminate.
  - reflexivity.
Defined.





(** ** TrashTruckAgent.execute: position, store and load *)

Lemma reroute_block_position (critical_containers : list pos) (p : pos) :
  in_grid p ->
  in_grid (snd (reroute_block critical_containers p p))
  /\ manhattan (snd (reroute_block critical_containers p p)) p <= 1.
Proof.
  unfold reroute_block, in_grid, manhattan. destruct p as [x y].
  cbn [fst snd]. intros Hp.
  destruct critical_containers as [|c cs]; cbn [fst snd]; [lia|].
  destruct (min_key _ c cs) as [target_x target_y].
  repeat match goal with
         | |- context [if ?b then _ else _] => destruct b eqn:?
         end; cbn [fst snd];
    rewrite ?andb_true_iff, ?Z.ltb_lt in *; lia.
Qed.

Lemma move_target_in_grid (a : action) (p : pos) :
  in_grid p -> in_grid (move_target a p).
Proof.
  unfold in_grid, move_target. destruct p as [x y]. cbn [fst snd]. intros Hp.
  destruct a;
    repeat match goal with
           | |- context [if ?x <? ?y then _ else _] =>
               destruct (Z.ltb_spec x y)
           end; cbn [fst snd]; lia.
Qed.

Lemma execute_position (m : list TrashContainerAgent) (t : TrashTruckAgent)
    (a : action) :
  position (snd (snd (execute m t a)))
  = match a with
    | ChangeRoute =>
        snd (reroute_block (get_critical_containers m) (position t)
               (position t))
    | _ => move_target a (position t)
    end.
Proof.
  unfold execute.
  destruct a; cbn zeta iota beta; try reflexivity.
  - destruct (collect_block m t) as [[r m'] t']. reflexivity.
  - replace (move_target ChangeRoute (position t)) with (position t)
      by (now destruct (position t)).
    destruct (reroute_block _ _ _). reflexivity.
Qed.

Lemma execute_position_bound (m : list TrashContainerAgent)
    (t : TrashTruckAgent) (a : action) :
  in_grid (position t) ->
  in_grid (position (snd (snd (execute m t a))))
  /\ manhattan (position (snd (snd (execute m t a)))) (position t) <= 1.
Proof.
  intros Hp. rewrite execute_position.
  destruct a; try (now apply reroute_block_position);
    (split; [now apply move_target_in_grid|]);
    match goal with
    | |- manhattan (move_target ?a _) _ <= 1 =>
        pose proof (move_target_distance a (position t) (position t))
    end; unfold manhattan in *; lia.
Qed.

(** X9. [execute] never takes a truck off the 8 x 8 grid, and moves it by
    at most one cell, whatever the action and the containers. *)
Theorem execute_stays_in_grid (m : list TrashContainerAgent)
    (t : TrashTruckAgent) (a : action) :
  in_grid (position t) ->
  let t' := snd (snd (execute m t a)) in
  in_grid (position t') /\ manhattan (position t') (position t) <= 1.
Proof. intros Hp t'. now apply execute_position_bound. Qed.

Lemma execute_stays_in_grid_witness :
  let m := [mkContainer (1, 1) 30 28 0] in
  let t := mkTruck 35 0 (7, 3) ∅ (decimal 3 10) (decimal 15 100)
                   (decimal 9 10) 0 in
  in_grid (position (snd (snd (execute m t Right))))
  /\ manhattan (position (snd (snd (execute m t Right)))) (position t) <= 1.
Proof.
  intros m t. apply (execute_stays_in_grid m t Right).
  unfold in_grid. cbn. lia.
Defined.

Lemma total_fill_insert (m : list TrashContainerAgent) (i : nat)
    (c c' : TrashContainerAgent) :
  m !! i = Some c ->
  total_fill (<[i := c']> m) = total_fill m - current_fill c + current_fill c'.
Proof.
  revert i. induction m as [|c0 m IH]; intros [|i] H; try discriminate.
  - injection H as <-. unfold total_fill. cbn. lia.
  - change (<[S i := c']> (c0 :: m)) with (c0 :: <[i := c']> m).
    change (total_fill (c0 :: <[i := c']> m))
      with (current_fill c0 + total_fill (<[i := c']> m)).
    change (total_fill (c0 :: m)) with (current_fill c0 + total_fill m).
    rewrite (IH i H). lia.
Qed.

Lemma map_insert_same {B : Type} (f : TrashContainerAgent -> B)
    (m : list TrashContainerAgent) (i : nat) (c c' : TrashContainerAgent) :
  m !! i = Some c -> f c' = f c -> map f (<[i := c']> m) = map f m.
Proof.
  revert i. induction m as [|c0 m IH]; intros [|i] H Hf; try discriminate.
  - injection H as <-. cbn. now rewrite Hf.
  - change (<[S i := c']> (c0 :: m)) with (c0 :: <[i := c']> m).
    cbn [map]. now rewrite (IH i H Hf).
Qed.

(** What the collect block does: nothing, at the price of 2, or the move of
    between 1 and 10 units from one container to the truck. *)
Lemma collect_block_effect (m : list TrashContainerAgent)
    (t : TrashTruckAgent) :
  collect_block m t = (-2, m, t)
  \/ exists i c collected,
      m !! i = Some c
      /\ 1 <= collected <= 10
      /\ collected <= current_fill c
      /\ load t + collected <= capacity t
      /\ snd (fst (collect_block m t))
         = <[i := set_fill c (current_fill c - collected)]> m
      /\ snd (collect_block m t) = set_load t (load t + collected)
      /\ 30 * collected <= fst (fst (collect_block m t)) <= 130 * collected.
Proof.
  unfold collect_block.
  destruct (get_container_at_position m (position t)) as [[i c]|] eqn:E;
    [|now left].
  destruct (Z.ltb_spec (load t) (capacity t)); [|now left].
  destruct (Z.ltb_spec 0 (current_fill c)); [|now left].
  right. apply get_container_at_position_lookup in E.
  exists i, c, (Z.min (Z.min (current_fill c) (capacity t - load t)) 10).
  unfold collect_trash. cbn zeta.
  replace (Z.min (current_fill c)
             (Z.min (Z.min (current_fill c) (capacity t - load t)) 10))
    with (Z.min (Z.min (current_fill c) (capacity t - load t)) 10) by lia.
  repeat split; try lia; try exact E;
    destruct (is_critical _); cbn; lia.
Qed.

Lemma execute_frame (m : list TrashContainerAgent) (t : TrashTruckAgent)
    (a : action) :
  total_fill (fst (snd (execute m t a))) + load (snd (snd (execute m t a)))
  = total_fill m + load t
  /\ load t <= load (snd (snd (execute m t a))) <= load t + 10
  /\ map c_position (fst (snd (execute m t a))) = map c_position m
  /\ map c_capacity (fst (snd (execute m t a))) = map c_capacity m
  /\ capacity (snd (snd (execute m t a))) = capacity t
  /\ truck_id (snd (snd (execute m t a))) = truck_id t
  /\ (a <> Collect ->
      fst (snd (execute m t a)) = m
      /\ load (snd (snd (execute m t a))) = load t).
Proof.
  unfold execute.
  destruct a; cbn zeta iota beta;
    try (destruct (reroute_block _ _ _)); cbn [fst snd];
    try (cbn; repeat split; (lia || reflexivity)).
  destruct (collect_block_effect m t)
    as [Hnone|(i & c & collected & Hi & Hcol & Hfill & Hload & Hm & Ht & _)].
  - rewrite Hnone. cbn. repeat split; try lia; congruence.
  - destruct (collect_block m t) as [[r m'] t']. cbn [fst snd] in *.
    subst m' t'. cbn [load set_load set_position capacity truck_id].
    rewrite (total_fill_insert m i c _ Hi).
    rewrite !(map_insert_same _ m i c _ Hi) by reflexivity.
    cbn. repeat split; try lia; congruence.
Qed.

(** X10. [execute] neither creates nor destroys trash: the fills of the
    containers plus the load of the truck are the same before and after.  The
    load never decreases and grows by at most 10; positions and capacities of
    the containers and the capacity of the truck are untouched; an action
    other than [collect] changes neither the containers nor the load. *)
Theorem execute_conserves_trash (m : list TrashContainerAgent)
    (t : TrashTruckAgent) (a : action) :
  let m' := fst (snd (execute m t a)) in
  let t' := snd (snd (execute m t a)) in
  total_fill m' + load t' = total_fill m + load t
  /\ load t <= load t' <= load t + 10
  /\ map c_position m' = map c_position m
  /\ map c_capacity m' = map c_capacity m
  /\ capacity t' = capacity t
  /\ (a <> Collect -> m' = m /\ load t' = load t).
Proof.
  cbv zeta. pose proof (execute_frame m t a). tauto.
Qed.

(** ** TrashTruckAgent.update_q: failure, frame and direction *)

(** The table after the two lazy initialisations. *)
Lemma init_both_lookup (q : gmap qstate action_values) (s s' x : qstate) :
  init_state s' (init_state s q) !! x
  = match q !! x with
    | Some row => Some row
    | None => if decide (x = s \/ x = s') then Some zero_values else None
    end.
Proof.
  rewrite !init_state_lookup. destruct (q !! x); [reflexivity|].
  destruct (decide (s = x)) as [->|Hs].
  - rewrite decide_True by auto. reflexivity.
  - destruct (decide (s' = x)) as [->|Hn].
    + rewrite decide_True by auto. reflexivity.
    + rewrite decide_False by (intros [?|?]; congruence). reflexivity.
Qed.

(** What a returning [update_q] has read and written. *)
Lemma update_q_some (t t' : TrashTruckAgent) (s : qstate) (a : action)
    (reward : Z) (next_state : qstate) :
  update_q t s a reward next_state = Some t' ->
  let q := init_state next_state (init_state s (q_table t)) in
  exists row old_value next_row next_max,
    q !! s = Some row
    /\ dict_get row a = Some old_value
    /\ q !! next_state = Some next_row
    /\ max_of (map snd next_row) = Some next_max
    /\ t' = set_q_table t
              (<[s := dict_set row a
                        (old_value
                         + alpha t * (of_int reward + gamma t * next_max
                                      - old_value))%Qc]> q).
Proof.
  intros H q. unfold update_q in H. fold q in H.
  destruct (q !! s) as [row|] eqn:E1; cbn in H; [|discriminate].
  destruct (dict_get row a) as [old_value|] eqn:E2; cbn in H; [|discriminate].
  destruct (q !! next_state) as [next_row|] eqn:E3; cbn in H; [|discriminate].
  destruct (max_of (map snd next_row)) as [next_max|] eqn:E4; cbn in H;
    [|discriminate].
  injection H as <-. exists row, old_value, next_row, next_max.
  repeat split; (reflexivity || assumption).
Qed.

Lemma max_of_none (l : list Qc) : max_of l = None <-> l = [].
Proof. destruct l; cbn; split; congruence. Qed.

(** X11. [update_q] raises in two cases only: the row stored for [state]
    lacks the action (the [KeyError] of [q_table[state][action]]), or the row
    stored for [next_state] is empty (the [ValueError] of [max] on no
    values).  A state with no row never makes it raise. *)
Theorem update_q_fails_iff (t : TrashTruckAgent) (s : qstate) (a : action)
    (reward : Z) (next_state : qstate) :
  update_q t s a reward next_state = None
  <-> (exists row, q_table t !! s = Some row /\ dict_get row a = None)
      \/ q_table t !! next_state = Some [].
Proof.
  unfold update_q.
  set (q := init_state next_state (init_state s (q_table t))).
  pose proof (init_both_lookup (q_table t) s next_state s) as Hs.
  pose proof (init_both_lookup (q_table t) s next_state next_state) as Hn.
  fold q in Hs, Hn.
  rewrite decide_True in Hs by auto. rewrite decide_True in Hn by auto.
  destruct (q_table t !! s) as [row|] eqn:Es; rewrite Hs; cbn.
  - destruct (dict_get row a) as [old_value|] eqn:Eold; cbn.
    + destruct (q_table t !! next_state) as [next_row|] eqn:En;
        rewrite Hn; cbn.
      * destruct (max_of (map snd next_row)) as [next_max|] eqn:Emax; cbn.
        -- split; [discriminate|]. intros [(r & [= <-] & Hr)|[= ->]];
             [congruence | discriminate].
        -- apply max_of_none in Emax.
           destruct next_row; [|discriminate]. split; auto.
      * split; [discriminate|].
        intros [(r & [= <-] & Hr)|[=]]. congruence.
    + split; eauto.
  - destruct a; cbn;
      (destruct (q_table t !! next_state) as [next_row|] eqn:En;
       rewrite Hn; cbn;
       [ destruct (max_of (map snd next_row)) as [next_max|] eqn:Emax; cbn;
         [ split; [discriminate|];
           intros [(r & [=] & _)|[= ->]]; discriminate
         | apply max_of_none in Emax;
           destruct next_row; [|discriminate]; split; auto ]
       | split; [discriminate|]; intros [(r & [=] & _)|[=]] ]).
Qed.

(** X12. A returning [update_q] forgets no state and learns at most the two
    it was given: the states with a row afterwards are those with a row
    before, [state] and [next_state]; the row of every state other than
    [state] is the one it had, or the fresh row of zeros for a new
    [next_state]; and nothing of the truck but its table changes. *)
Theorem update_q_frame (t t' : TrashTruckAgent) (s : qstate) (a : action)
    (reward : Z) (next_state : qstate) :
  update_q t s a reward next_state = Some t' ->
  (forall x, is_Some (q_table t' !! x)
             <-> x = s \/ x = next_state \/ is_Some (q_table t !! x))
  /\ (forall x, x <> s ->
        q_table t' !! x
        = match q_table t !! x with
          | Some row => Some row
          | None => if decide (x = next_state) then Some zero_values else None
          end)
  /\ set_q_table t' (q_table t) = t.
Proof.
  intros H.
  apply update_q_some in H as (row & old & nrow & nmax & Hrow & _ & _ & _ & ->).
  cbn [q_table set_q_table]. split; [|split].
  - intros x. destruct (decide (s = x)) as [<-|Hx].
    + rewrite lookup_insert_eq. split; eauto.
    + rewrite lookup_insert_ne, init_both_lookup by assumption.
      destruct (q_table t !! x) eqn:E.
      * split; eauto.
      * destruct (decide (x = s \/ x = next_state)) as [Hd|Hd].
        -- split; [intros _; tauto | eauto].
        -- split; [intros [? [=]]|].
           intros [?|[?|[? [=]]]]; tauto.
  - intros x Hx. rewrite lookup_insert_ne, init_both_lookup by congruence.
    destruct (q_table t !! x); [reflexivity|].
    destruct (decide (x = next_state)) as [->|Hn].
    + rewrite decide_True by auto. reflexivity.
    + rewrite decide_False by tauto. reflexivity.
  - destruct t; reflexivity.
Qed.

Lemma update_q_frame_witness :
  let t := mkTruck 35 0 (1, 1) ∅ (decimal 3 10) (decimal 15 100)
                   (decimal 9 10) 0 in
  exists t', update_q t ((1, 1), 0) Collect 300 ((1, 1), 10) = Some t'
             /\ q_table t' !! ((1, 1), 10) = Some zero_values
             /\ q_table t' !! ((0, 0), 0) = None.
Proof.
  intros t.
  destruct (update_q t ((1, 1), 0) Collect 300 ((1, 1), 10)) as [t'|] eqn:E;
    [|vm_compute in E; discriminate].
  exists t'. split; [reflexivity|].
  destruct (update_q_frame t t' ((1, 1), 0) Collect 300 ((1, 1), 10) E)
    as (_ & Hrows & _).
  split.
  - rewrite Hrows by discriminate. reflexivity.
  - rewrite Hrows by discriminate. reflexivity.
Defined.





(** ** Persistence across runs *)

Lemma save_q_table_other (fs : gmap Z file) (t : TrashTruckAgent) (j : Z) :
  j <> truck_id t -> save_q_table fs t !! j = fs !! j.
Proof.
  intros Hj. unfold save_q_table.
  destruct (fs !! truck_id t) as [[|q eps runs]|];
    [reflexivity | |]; now rewrite lookup_insert_ne.
Qed.

Lemma save_q_table_own (fs : gmap Z file) (t : TrashTruckAgent) :
  fs !! truck_id t <> Some Corrupt ->
  exists runs,
    save_q_table fs t !! truck_id t
    = Some (Pickled (q_table t) (Some (epsilon t)) (Some runs))
    /\ runs = match fs !! truck_id t with
              | Some (Pickled _ _ old) => default 0 old + 1
              | _ => 1
              end.
Proof.
  intros Hfile. unfold save_q_table.
  destruct (fs !! truck_id t) as [[|q eps runs]|] eqn:E; [congruence| |];
    rewrite lookup_insert_eq; eauto.
Qed.

(** X14. The run counter counts the saves: saving a truck [n >= 1] times
    over a store with no file of its identity leaves a file holding its
    table, its exploration rate and the counter [n]; the files of the other
    identities are never touched. *)
Theorem save_q_table_counts_runs (fs : gmap Z file) (t : TrashTruckAgent)
    (n : nat) :
  fs !! truck_id t = None ->
  let fs' := Nat.iter (S n) (fun f => save_q_table f t) fs in
  fs' !! truck_id t
  = Some (Pickled (q_table t) (Some (epsilon t)) (Some (Z.of_nat (S n))))
  /\ forall j, j <> truck_id t -> fs' !! j = fs !! j.
Proof.
  intros Hnone. cbv zeta. induction n as [|n [IHown IHother]].
  - cbn. split.
    + unfold save_q_table. rewrite Hnone. apply lookup_insert_eq.
    + intros j Hj. now apply save_q_table_other.
  - rewrite Nat.iter_succ. split.
    + replace (Z.of_nat (S (S n))) with (Z.of_nat (S n) + 1) by lia.
      unfold save_q_table at 1. rewrite IHown. cbn [default].
      apply lookup_insert_eq.
    + intros j Hj. rewrite save_q_table_other by assumption. now apply IHother.
Qed.

Lemma save_q_table_counts_runs_witness :
  let t := mkTruck 35 0 (0, 0) {[ ((0, 0), 0) := zero_values ]}
                   (decimal 3 10) (decimal 15 100) (decimal 9 10) 2 in
  Nat.iter 3 (fun f => save_q_table f t) ∅ !! 2
  = Some (Pickled (q_table t) (Some (epsilon t)) (Some 3)).
Proof.
  intros t. apply (save_q_table_counts_runs ∅ t 2). reflexivity.
Defined.

(** X15. [load_q_table] is best effort: with no file of the truck's
    identity, or an unreadable one, the truck is left exactly as it was; with
    a readable file the truck gets the stored table and an exploration rate
    of at least 0.2.  In every case load, capacity, position, identity,
    learning rate and discount factor are untouched. *)
Theorem load_q_table_spec (fs : gmap Z file) (t : TrashTruckAgent) :
  let t' := load_q_table fs t in
  match fs !! truck_id t with
  | None | Some Corrupt => t' = t
  | Some (Pickled q _ _) =>
      q_table t' = q /\ (decimal 2 10 <= epsilon t')%Qc
  end
  /\ set_epsilon (set_q_table t' (q_table t)) (epsilon t) = t.
Proof.
  cbv zeta. unfold load_q_table.
  destruct (fs !! truck_id t) as [[|q eps runs]|]; cbn.
  - split; [reflexivity | now destruct t].
  - split; [|now destruct t]. split; [reflexivity | apply decay_floor].
  - split; [reflexivity | now destruct t].
Qed.

(** [setup] reads the store at identity 0 only. *)
Lemma setup_reads_file_zero (p : Parameters) (fs fs' : gmap Z file)
    (fill : nat -> Z) :
  fs !! 0 = fs' !! 0 -> setup p fs fill = setup p fs' fill.
Proof.
  intros H. unfold setup, truck_setup, load_q_table. cbn [truck_id].
  now rewrite H.
Qed.

Lemma foldl_save_other (ts : list TrashTruckAgent) (fs : gmap Z file) (j : Z) :
  Forall (fun t => truck_id t <> j) ts ->
  foldl save_q_table fs ts !! j = fs !! j.
Proof.
  revert fs. induction ts as [|t ts IH]; intros fs Hts; cbn; [reflexivity|].
  apply Forall_cons in Hts as [Ht Hts].
  rewrite IH by assumption. apply save_q_table_other. congruence.
Qed.

(** X16. Every truck is set up with the table stored under identity 0,
    because the identity is assigned after the table is loaded.  After [end]
    has saved the tables of an environment whose first truck has identity 0
    and whose other trucks have other identities, the trucks of the next
    [setup] all carry the table of that first truck and its exploration rate
    decayed to [max(0.2, 0.98 * epsilon)]: what the other trucks learned is
    saved and never read back. *)
Theorem setup_after_end (p : Parameters) (fs : gmap Z file)
    (e : GarbageEnvironment) (fill : nat -> Z) (t0 : TrashTruckAgent)
    (ts : list TrashTruckAgent) :
  trucks e = t0 :: ts ->
  truck_id t0 = 0 ->
  Forall (fun t => truck_id t <> 0) ts ->
  fs !! 0 <> Some Corrupt ->
  Forall (fun t =>
            q_table t = q_table t0
            /\ epsilon t
               = Qc_max (decimal 2 10) (epsilon t0 * decimal 98 100)%Qc)
         (trucks (setup p (fst (model_end fs e)) fill)).
Proof.
  intros Htrucks Hid Hts Hfile.
  assert (Hstored : exists runs,
             fst (model_end fs e) !! 0
             = Some (Pickled (q_table t0) (Some (epsilon t0)) (Some runs))).
  { unfold model_end. cbn [fst]. rewrite Htrucks. cbn [foldl].
    rewrite foldl_save_other by assumption.
    rewrite <- Hid in Hfile |- *.
    destruct (save_q_table_own fs t0 Hfile) as (runs & -> & _). eauto. }
  destruct Hstored as [runs Hstored].
  unfold setup. cbn [trucks]. apply Forall_lookup. intros i t Hi.
  apply list_lookup_imap_Some in Hi as (q & _ & ->).
  unfold truck_setup, load_q_table. cbn [truck_id]. rewrite Hstored.
  cbn. auto.
Qed.

Lemma setup_after_end_witness :
  let t0 := mkTruck 35 0 (3, 3) {[ ((0, 0), 0) := zero_values ]}
                    (decimal 3 10) (decimal 15 100) (decimal 9 10) 0 in
  let t1 := mkTruck 35 5 (6, 1) {[ ((7, 0), 0) := zero_values ]}
                    (decimal 3 10) (decimal 15 100) (decimal 9 10) 1 in
  let e := mkEnvironment [] [t0; t1] 0 in
  Forall (fun t => q_table t = q_table t0
                   /\ epsilon t
                      = Qc_max (decimal 2 10) (epsilon t0 * decimal 98 100)%Qc)
         (trucks (setup parameters (fst (model_end ∅ e)) (fun _ => 10))).
Proof.
  intros t0 t1 e.
  apply (setup_after_end parameters ∅ e (fun _ => 10) t0 [t1]).
  - reflexivity.
  - reflexivity.
  - repeat constructor. cbn. lia.
  - rewrite lookup_empty. discriminate.
Defined.

(** ** GarbageEnvironment: what a step keeps *)

Lemma truck_step_frame (m m' : list TrashContainerAgent)
    (t t' : TrashTruckAgent) (u : Qc) (rc : action) :
  truck_step m t u rc = Some (m', t') ->
  map c_position m' = map c_position m
  /\ map c_capacity m' = map c_capacity m
  /\ truck_id t' = truck_id t
  /\ capacity t' = capacity t
  /\ (in_grid (position t) -> in_grid (position t'))
  /\ (0 <= load t ->
      0 <= load t' /\ total_fill m' + load t' <= total_fill m + load t).
Proof.
  unfold truck_step, decide_and_execute.
  pose proof (choose_action_truck m t (state t) u rc) as Hch.
  destruct (choose_action m t (state t) u rc) as [a t1]. cbn in Hch.
  pose proof (execute_frame m t1 a) as (Htot & Hload & Hpos & Hcap & Htc & Hid & _).
  pose proof (execute_position_bound m t1 a) as Hgrid.
  destruct (execute m t1 a) as [[reward next_state] [m2 t2]].
  cbn [fst snd] in *.
  destruct (update_q t2 (state t) a reward next_state) as [t3|] eqn:E;
    cbn; [|discriminate].
  intros [= <- <-].
  apply update_q_some in E as (? & ? & ? & ? & _ & _ & _ & _ & ->).
  cbn [truck_id capacity position load set_q_table].
  assert (Ht1 : truck_id t1 = truck_id t /\ capacity t1 = capacity t
                /\ position t1 = position t
                /\ (0 <= load t -> 0 <= load t1 <= load t)).
  { destruct Hch as [->| ->]; cbn; repeat split; lia. }
  destruct Ht1 as (Hid1 & Hcap1 & Hpos1 & Hload1).
  split; [exact Hpos|]. split; [exact Hcap|].
  split; [congruence|]. split; [congruence|]. split.
  - intros Hin. rewrite <- Hpos1 in Hin. now apply Hgrid.
  - intros H0. specialize (Hload1 H0). lia.
Qed.

Lemma trucks_step_frame (draw : nat -> Qc * action)
    (ts : list TrashTruckAgent) :
  forall (i : nat) (m m' : list TrashContainerAgent)
         (ts' : list TrashTruckAgent),
    trucks_step draw i m ts = Some (m', ts') ->
    map c_position m' = map c_position m
    /\ map c_capacity m' = map c_capacity m
    /\ map truck_id ts' = map truck_id ts
    /\ map capacity ts' = map capacity ts
    /\ (Forall (fun t => in_grid (position t)) ts ->
        Forall (fun t => in_grid (position t)) ts')
    /\ (Forall (fun t => 0 <= load t) ts ->
        Forall (fun t => 0 <= load t) ts'
        /\ total_fill m' + total_load ts' <= total_fill m + total_load ts).
Proof.
  induction ts as [|t ts IH]; intros i m m' ts'; cbn.
  - intros [= <- <-]. do 4 (split; [reflexivity|]). split; [auto|].
    intros H. split; [exact H | unfold total_load; cbn; lia].
  - destruct (truck_step m t (fst (draw i)) (snd (draw i)))
      as [[m1 t1]|] eqn:E1; cbn; [|discriminate].
    destruct (trucks_step draw (S i) m1 ts) as [[m2 ts2]|] eqn:E2;
      cbn; [|discriminate].
    intros [= <- <-].
    apply truck_step_frame in E1 as (Hp1 & Hc1 & Hid1 & Hcap1 & Hg1 & Hl1).
    apply IH in E2 as (Hp2 & Hc2 & Hid2 & Hcap2 & Hg2 & Hl2).
    cbn [map]. do 4 (split; [congruence|]). split.
    + intros H. apply Forall_cons in H as [Ht Hts]. constructor; auto.
    + intros H. apply Forall_cons in H as [Ht Hts].
      destruct (Hl1 Ht) as [H0 H1]. destruct (Hl2 Hts) as [H0' H2].
      split; [now constructor|].
      unfold total_load in *. cbn [map foldr]. lia.
Qed.

Lemma containers_step_frame (d : Qc) (m : list TrashContainerAgent) :
  forall cdraw : nat -> Qc * Z,
    let m' := imap (fun i c =>
                      container_step d (fst (cdraw i)) (snd (cdraw i)) c) m in
    map c_position m' = map c_position m
    /\ map c_capacity m' = map c_capacity m
    /\ ((forall i, 0 <= snd (cdraw i) <= 5) ->
        total_fill m' <= total_fill m + 5 * Z.of_nat (length m)).
Proof.
  induction m as [|c m IH]; intros cdraw; cbn zeta.
  - cbn. repeat split. lia.
  - rewrite imap_cons.
    destruct (IH (fun i => cdraw (S i))) as (Hp & Hc & Hf).
    cbn [map]. unfold compose. rewrite Hp, Hc.
    assert (Hstep : forall u g,
               c_position (container_step d u g c) = c_position c
               /\ c_capacity (container_step d u g c) = c_capacity c
               /\ (0 <= g <= 5 ->
                   current_fill (container_step d u g c)
                   <= current_fill c + 5)).
    { intros u g. unfold container_step. destruct (Qc_ltb u d); cbn;
        repeat split; lia. }
    destruct (Hstep (fst (cdraw 0%nat)) (snd (cdraw 0%nat)))
      as (-> & -> & Hfill).
    repeat split. intros Hdraw.
    specialize (Hf (fun i => Hdraw (S i))). specialize (Hfill (Hdraw 0%nat)).
    unfold total_fill in *. cbn [map foldr length]. lia.
Qed.

Lemma valid_generation_bounds (d : Qc) (g : Z) :
  valid_generation d g -> 0 <= g <= 5.
Proof. unfold valid_generation. destruct (Qc_leb _ _); lia. Qed.

Lemma model_step_frame (p : Parameters) (cdraw : nat -> Qc * Z)
    (tdraw : nat -> Qc * action) (e e' : GarbageEnvironment) :
  model_step p cdraw tdraw e = Some e' ->
  map c_position (containers e') = map c_position (containers e)
  /\ map c_capacity (containers e') = map c_capacity (containers e)
  /\ map truck_id (trucks e') = map truck_id (trucks e)
  /\ map capacity (trucks e') = map capacity (trucks e)
  /\ initial_trash e' = initial_trash e
  /\ (Forall (fun t => in_grid (position t)) (trucks e) ->
      Forall (fun t => in_grid (position t)) (trucks e'))
  /\ ((forall i, valid_generation (population_density p) (snd (cdraw i))) ->
      Forall (fun t => 0 <= load t) (trucks e) ->
      total_fill (containers e') + total_load (trucks e')
      <= total_fill (containers e) + total_load (trucks e)
         + 5 * Z.of_nat (length (containers e))).
Proof.
  unfold model_step.
  destruct (containers_step_frame (population_density p) (containers e) cdraw)
    as (Hp0 & Hc0 & Hf0).
  destruct (trucks_step tdraw 0 _ (trucks e)) as [[m2 ts2]|] eqn:E;
    cbn; [|discriminate].
  intros [= <-]. cbn [containers trucks initial_trash].
  apply trucks_step_frame in E as (Hp & Hc & Hid & Hcap & Hg & Hl).
  repeat split; try congruence; try assumption.
  intros Hdraw Hload. destruct (Hl Hload) as [_ Htot].
  assert (Hb : forall i, 0 <= snd (cdraw i) <= 5)
    by (intros i; eapply valid_generation_bounds, Hdraw).
  specialize (Hf0 Hb). lia.
Qed.

(** X17. The shape of the environment is fixed for the whole run: in every
    state reachable from [setup] the five containers stand at the five
    distinct positions of [container_positions] with the configured capacity,
    the three trucks have the identities 0, 1, 2 and the configured capacity
    and stand on the 8 x 8 grid, and [initial_trash] is the sum of the five
    initial fills, between 25 and 100. *)
Theorem reachable_shape (p : Parameters) (e : GarbageEnvironment) :
  reachable p e ->
  map c_position (containers e) = container_positions
  /\ NoDup (map c_position (containers e))
  /\ map c_capacity (containers e) = replicate 5 (container_limit p)
  /\ map truck_id (trucks e) = [0; 1; 2]
  /\ map capacity (trucks e) = replicate 3 (p_capacity p)
  /\ Forall (fun t => in_grid (position t)) (trucks e)
  /\ 25 <= initial_trash e <= 100.
Proof.
  assert (Hnd : NoDup container_positions).
  { unfold container_positions.
    repeat (apply NoDup_cons_2;
            [rewrite ?elem_of_cons, elem_of_nil; intuition discriminate|]).
    apply NoDup_nil_2. }
  induction 1 as [fs fill Hfill | e e' cdraw tdraw _ IH Hdraw Hstep].
  - unfold setup. cbn [containers trucks initial_trash].
    repeat split; try reflexivity.
    + exact Hnd.
    + cbn. unfold truck_setup.
      now rewrite (proj2 (load_q_table_fields fs _)).
    + repeat constructor; unfold in_grid; cbn; lia.
    + cbn. pose proof (Hfill 0%nat). pose proof (Hfill 1%nat).
      pose proof (Hfill 2%nat). pose proof (Hfill 3%nat).
      pose proof (Hfill 4%nat). lia.
    + cbn. pose proof (Hfill 0%nat). pose proof (Hfill 1%nat).
      pose proof (Hfill 2%nat). pose proof (Hfill 3%nat).
      pose proof (Hfill 4%nat). lia.
  - destruct IH as (Hp & Hndp & Hc & Hid & Hcap & Hgrid & Htrash).
    apply model_step_frame in Hstep
      as (Hp' & Hc' & Hid' & Hcap' & Htrash' & Hgrid' & _).
    rewrite Hp', Hc', Hid', Hcap', Htrash'. auto 10.
Qed.

Lemma reachable_shape_witness :
  let e := setup parameters ∅ (fun _ => 12) in
  map c_position (containers e) = container_positions
  /\ NoDup (map c_position (containers e))
  /\ map c_capacity (containers e) = replicate 5 (container_limit parameters)
  /\ map truck_id (trucks e) = [0; 1; 2]
  /\ map capacity (trucks e) = replicate 3 (p_capacity parameters)
  /\ Forall (fun t => in_grid (position t)) (trucks e)
  /\ 25 <= initial_trash e <= 100.
Proof.
  intros e. apply (reachable_shape parameters e).
  apply reachable_setup. intros i. lia.
Defined.

(** X18. A step creates trash by generation only, at most 5 units per
    container: with valid draws and no negative load, the trash held by the
    containers and the trucks after [step] is at most what they held before
    plus five times the number of containers (it falls when a truck
    unloads). *)
Theorem model_step_trash_bound (p : Parameters) (cdraw : nat -> Qc * Z)
    (tdraw : nat -> Qc * action) (e e' : GarbageEnvironment) :
  (forall i, valid_generation (population_density p) (snd (cdraw i))) ->
  Forall (fun t => 0 <= load t) (trucks e) ->
  model_step p cdraw tdraw e = Some e' ->
  total_fill (containers e') + total_load (trucks e')
  <= total_fill (containers e) + total_load (trucks e)
     + 5 * Z.of_nat (length (containers e)).
Proof.
  intros Hdraw Hload Hstep.
  apply model_step_frame in Hstep as (_ & _ & _ & _ & _ & _ & H). auto.
Qed.

Lemma model_step_trash_bound_witness :
  let cdraw := fun i : nat => (decimal 1 10, 3) in
  let tdraw := fun i : nat => (decimal 1 2, Up) in
  let e := setup parameters ∅ (fun _ => 12) in
  exists e', model_step parameters cdraw tdraw e = Some e'
             /\ total_fill (containers e') + total_load (trucks e')
                <= total_fill (containers e) + total_load (trucks e)
                   + 5 * Z.of_nat (length (containers e)).
Proof.
  intros cdraw tdraw e.
  destruct (model_step parameters cdraw tdraw e) as [e'|] eqn:E;
    [|vm_compute in E; discriminate].
  exists e'. split; [reflexivity|].
  apply (model_step_trash_bound parameters cdraw tdraw e e').
  - intros i. vm_compute. split; discriminate.
  - apply Forall_lookup. intros i t Hi. unfold e, setup in Hi.
    cbn [trucks] in Hi. apply list_lookup_imap_Some in Hi as (q & _ & ->).
    cbn [load set_truck_id set_position]. unfold truck_setup.
    rewrite (proj1 (load_q_table_fields _ _)). cbn. lia.
  - exact E.
Defined.

(** ** api_server.py: the truck status and the two efficiencies *)

Lemma ratio_Q (a b : Z) :
  0 < b ->
  (this (of_int a / of_int b * of_int 100)%Qc == (100 * a # Z.to_pos b))%Q.
Proof.
  intros Hb. unfold of_int, Qcdiv, Qcmult, Qcinv. cbn [this Q2Qc].
  rewrite !Qred_correct.
  destruct b as [|b|b]; try lia. cbn [Z.to_pos].
  unfold Qeq, Qmult, Qinv, inject_Z. cbn. lia.
Qed.

(** Comparing a percentage with an integer is the cross-multiplied
    comparison of integers. *)
Lemma percentage_ge (n a b : Z) :
  0 < b ->
  Qc_leb (of_int n) (of_int a / of_int b * of_int 100)%Qc
  = (n * b <=? 100 * a).
Proof.
  intros Hb. apply eq_true_iff_eq. rewrite Z.leb_le.
  unfold Qc_leb. rewrite Qle_bool_iff, ratio_Q by assumption.
  unfold of_int. cbn [this Q2Qc]. rewrite Qred_correct.
  unfold Qle, inject_Z. cbn [Qnum Qden]. rewrite Z2Pos.id by assumption. lia.
Qed.

Lemma percentage_le (n a b : Z) :
  0 < b ->
  Qc_leb (of_int a / of_int b * of_int 100)%Qc (of_int n)
  = (100 * a <=? n * b).
Proof.
  intros Hb. apply eq_true_iff_eq. rewrite Z.leb_le.
  unfold Qc_leb. rewrite Qle_bool_iff, ratio_Q by assumption.
  unfold of_int. cbn [this Q2Qc]. rewrite Qred_correct.
  unfold Qle, inject_Z. cbn [Qnum Qden]. rewrite Z2Pos.id by assumption. lia.
Qed.

Lemma percentage_none (a b : Z) : percentage a b = None <-> b = 0.
Proof.
  unfold percentage. destruct (Z.eqb_spec b 0); split; congruence.
Qed.

(** X19. [get_truck_status] raises exactly when the capacity is 0.  With a
    positive capacity it answers [full] exactly from 90% of the capacity,
    [half_full] exactly from 50% and below 90%, [collecting] for a positive
    load below 50%, and [empty] for a load of 0 or less. *)
Theorem get_truck_status_spec (t : TrashTruckAgent) :
  (get_truck_status t = None <-> capacity t = 0)
  /\ (0 < capacity t ->
      exists st,
        get_truck_status t = Some st
        /\ (st = StatusFull <-> 9 * capacity t <= 10 * load t)
        /\ (st = StatusHalfFull <->
            capacity t <= 2 * load t /\ 10 * load t < 9 * capacity t)
        /\ (st = StatusCollecting <->
            0 < load t /\ 2 * load t < capacity t)
        /\ (st = StatusEmpty <-> load t <= 0)).
Proof.
  unfold get_truck_status. split.
  - destruct (percentage (load t) (capacity t)) eqn:E; cbn.
    + split; [discriminate|]. intros H.
      apply (proj2 (percentage_none (load t) (capacity t))) in H. congruence.
    + split; [intros _; exact (proj1 (percentage_none _ _) E) | reflexivity].
  - intros Hcap. unfold percentage.
    destruct (Z.eqb_spec (capacity t) 0) as [|_]; [lia|]. cbn.
    rewrite !percentage_ge by assumption.
    eexists. split; [reflexivity|].
    destruct (Z.leb_spec (90 * capacity t) (100 * load t)),
      (Z.leb_spec (50 * capacity t) (100 * load t)),
      (Z.ltb_spec 0 (load t));
      repeat split; intros; try discriminate; lia.
Qed.

Lemma get_truck_status_spec_witness :
  get_truck_status (mkTruck 35 20 (3, 3) ∅ (decimal 3 10) (decimal 15 100)
                            (decimal 9 10) 0)
  = Some StatusHalfFull.
Proof.
  destruct (get_truck_status_spec
              (mkTruck 35 20 (3, 3) ∅ (decimal 3 10) (decimal 15 100)
                       (decimal 9 10) 0)) as [_ H].
  destruct H as (st & -> & _ & Hhalf & _); [cbn; lia|].
  f_equal. apply Hhalf. cbn. lia.
Defined.

(** X20. The efficiency [end] returns and the efficiency of the snapshot
    are the same number whenever no fill and no load is negative, although
    one guards the division with [max(1, ...)] and the other with a test; it
    lies between 0 and 100, and is 0 when there is no trash at all. *)
Theorem efficiencies_agree (total_trash_generated total_collected : Z) :
  0 <= total_trash_generated ->
  0 <= total_collected ->
  end_efficiency total_trash_generated total_collected
  = snapshot_efficiency total_collected
      (total_trash_generated + total_collected)
  /\ Qc_leb (of_int 0)
       (end_efficiency total_trash_generated total_collected) = true
  /\ Qc_leb (end_efficiency total_trash_generated total_collected)
       (of_int 100) = true
  /\ (total_trash_generated + total_collected = 0 ->
      end_efficiency total_trash_generated total_collected = of_int 0).
Proof.
  intros Hg Hc. unfold end_efficiency, snapshot_efficiency.
  destruct (Z.ltb_spec 0 (total_trash_generated + total_collected))
    as [Hpos|Hzero].
  - replace (Z.max 1 (total_trash_generated + total_collected))
      with (total_trash_generated + total_collected) by lia.
    rewrite percentage_ge, percentage_le by assumption.
    repeat split; try (apply Z.leb_le; lia). lia.
  - assert (total_collected = 0) as -> by lia.
    assert (total_trash_generated = 0) as -> by lia.
    repeat split; apply Qc_is_canon; reflexivity.
Qed.

Lemma efficiencies_agree_witness :
  end_efficiency 30 10 = snapshot_efficiency 10 (30 + 10).
Proof.
  destruct (efficiencies_agree 30 10) as [H _]; [lia | lia | exact H].
Defined.

(** ** api_server.py: the snapshot *)

Lemma truck_data_none (i : nat) (t : TrashTruckAgent) :
  truck_data i t = None <-> capacity t = 0.
Proof.
  unfold truck_data, get_truck_status, percentage.
  destruct (Z.eqb_spec (capacity t) 0); cbn; split; congruence.
Qed.

Lemma container_data_none (i : nat) (c : TrashContainerAgent) :
  container_data i c = None <-> c_capacity c = 0.
Proof.
  unfold container_data, percentage.
  destruct (Z.eqb_spec (c_capacity c) 0); cbn; split; congruence.
Qed.

Lemma mapM_imap_none {A B : Type} (f : nat -> A -> option B)
    (P : A -> Prop) (l : list A) :
  (forall i x, f i x = None <-> P x) ->
  mapM (fun ix => f (fst ix) (snd ix)) (imap pair l) = None <-> Exists P l.
Proof.
  intros Hf. rewrite mapM_None, !Exists_exists. split.
  - intros ([i x] & Hin & Hnone). cbn in Hnone.
    apply elem_of_lookup_imap_1 in Hin as (j & y & [= -> ->] & Hy).
    exists y. split; [eapply list_elem_of_lookup_2; eassumption|].
    now apply (Hf j).
  - intros (x & Hin & Hx). apply list_elem_of_lookup_1 in Hin as [i Hi].
    exists (i, x). split; [now apply elem_of_lookup_imap_2|].
    cbn. now apply Hf.
Qed.

Lemma count_critical (m : list TrashContainerAgent) :
  foldr Z.add 0 (map (fun _ => 1) (List.filter is_critical m))
  = Z.of_nat (length (get_critical_containers m)).
Proof.
  unfold get_critical_containers. rewrite length_map.
  induction (List.filter is_critical m) as [|c l IH]; [reflexivity|].
  cbn [map foldr length]. rewrite IH. lia.
Qed.

(** X21. [extract_simulation_data] raises exactly when some truck or some
    container has capacity 0 (the division of the percentage).  Otherwise the
    snapshot has one entry per truck and per container, its count of critical
    containers is the number of positions [get_critical_containers] reports,
    its total collected is the sum of the loads, and entry [i] of the trucks
    carries the identity [i], the load, the capacity and the status of truck
    [i]. *)
Theorem extract_simulation_data_spec (model : GarbageEnvironment)
    (step_number : Z) (now : Qc) :
  (extract_simulation_data model step_number now = None
   <-> Exists (fun t => capacity t = 0) (trucks model)
       \/ Exists (fun c => c_capacity c = 0) (containers model))
  /\ forall d,
      extract_simulation_data model step_number now = Some d ->
      sd_step d = step_number
      /\ length (sd_trucks d) = length (trucks model)
      /\ length (sd_containers d) = length (containers model)
      /\ sd_critical_containers d
         = Z.of_nat (length (get_critical_containers (containers model)))
      /\ sd_total_trash_collected d = total_load (trucks model)
      /\ forall i t, trucks model !! i = Some t ->
           exists td, sd_trucks d !! i = Some td
                      /\ td_id td = i /\ td_load td = load t
                      /\ td_capacity td = capacity t
                      /\ get_truck_status t = Some (td_status td).
Proof.
  unfold extract_simulation_data.
  pose proof (mapM_imap_none truck_data (fun t => capacity t = 0)
                (trucks model) truck_data_none) as Ht.
  pose proof (mapM_imap_none container_data (fun c => c_capacity c = 0)
                (containers model) container_data_none) as Hc.
  destruct (mapM (fun it => truck_data (fst it) (snd it))
              (imap pair (trucks model))) as [tds|] eqn:Et; cbn.
  - destruct (mapM (fun ic => container_data (fst ic) (snd ic))
                (imap pair (containers model))) as [cds|] eqn:Ec; cbn.
    + split.
      * split; [discriminate|]. intros [H|H].
        -- apply Ht in H. discriminate.
        -- apply Hc in H. discriminate.
      * intros d [= <-]. cbn.
        pose proof (length_mapM _ _ _ Et) as Hlt.
        pose proof (length_mapM _ _ _ Ec) as Hlc.
        rewrite length_imap in Hlt. rewrite length_imap in Hlc.
        repeat split; try congruence; [apply count_critical|].
        intros i t Hi. apply mapM_Some_1 in Et.
        assert (Hit : imap pair (trucks model) !! i = Some (i, t))
          by (rewrite list_lookup_imap, Hi; reflexivity).
        destruct (Forall2_lookup_l _ _ _ _ _ Et Hit) as (td & Htd & Hdata).
        exists td. split; [exact Htd|]. cbn in Hdata.
        unfold truck_data in Hdata.
        destruct (percentage (load t) (capacity t)); cbn in Hdata;
          [|discriminate].
        destruct (get_truck_status t); cbn in Hdata; [|discriminate].
        injection Hdata as <-. cbn. auto.
    + split; [|discriminate]. split; [|reflexivity].
      intros _. right. now apply Hc.
  - split; [|discriminate]. split; [|reflexivity].
    intros _. left. now apply Ht.
Qed.

(** ** api_server.py: the history of snapshots *)

Lemma record_history_short (history : list SimulationData)
    (step_data : SimulationData) :
  (length history < 100)%nat ->
  record_history history step_data = history ++ [step_data].
Proof.
  intros Hlen. unfold record_history. rewrite length_app. cbn [length].
  destruct (Nat.ltb_spec 100 (length history + 1)); [lia | reflexivity].
Qed.

Lemma record_history_full (history : list SimulationData)
    (step_data : SimulationData) :
  (100 <= length history)%nat ->
  record_history history step_data = drop 1 (history ++ [step_data]).
Proof.
  intros Hlen. unfold record_history. rewrite length_app. cbn [length].
  destruct (Nat.ltb_spec 100 (length history + 1)); [|lia].
  now destruct (history ++ [step_data]).
Qed.

Lemma foldl_record_history (ds history : list SimulationData) :
  (length history <= 100)%nat ->
  foldl record_history history ds
  = drop (length (history ++ ds) - 100) (history ++ ds).
Proof.
  revert history. induction ds as [|d ds IH]; intros history Hlen.
  - cbn. rewrite app_nil_r.
    replace (length history - 100)%nat with 0%nat by lia. reflexivity.
  - cbn [foldl].
    replace (history ++ d :: ds) with ((history ++ [d]) ++ ds)
      by (now rewrite <- app_assoc).
    destruct (Nat.lt_ge_cases (length history) 100) as [Hshort|Hfull].
    + rewrite record_history_short by assumption.
      apply IH. rewrite length_app. cbn. lia.
    + rewrite record_history_full by assumption.
      assert (Hl : length (history ++ [d]) = 101%nat)
        by (rewrite length_app; cbn; lia).
      rewrite IH by (rewrite length_drop; lia).
      rewrite <- drop_app_le by lia.
      rewrite drop_drop. f_equal.
      rewrite length_drop, !length_app. cbn [length]. lia.
Qed.

(** X22. The history holds the most recent snapshots, at most 100 of them:
    after any number of snapshots have been recorded on an empty history, it
    is exactly the last [min(100, n)] of them in order, the oldest having
    been dropped one by one. *)
Theorem history_keeps_last_100 (ds : list SimulationData) :
  foldl record_history [] ds = drop (length ds - 100) ds
  /\ length (foldl record_history [] ds) = Nat.min 100 (length ds).
Proof.
  assert (H : foldl record_history [] ds = drop (length ds - 100) ds)
    by (rewrite foldl_record_history by (cbn; lia); reflexivity).
  split; [exact H|]. rewrite H, length_drop. lia.
Qed.

(** X23. [get_simulation_data_by_step] answers the first snapshot of the
    history with the requested step number; it answers 404 "no data" exactly
    on an empty history and 404 "step not found" exactly when the history is
    not empty and holds no snapshot of that step. *)
Theorem get_simulation_data_by_step_spec (history : list SimulationData)
    (step_number : Z) :
  match get_simulation_data_by_step history step_number with
  | inr data =>
      exists before after,
        history = before ++ data :: after
        /\ sd_step data = step_number
        /\ Forall (fun d => sd_step d <> step_number) before
  | inl NoSimulationDataAvailable => history = []
  | inl (StepNotFound n) =>
      n = step_number /\ history <> []
      /\ Forall (fun d => sd_step d <> step_number) history
  end.
Proof.
  unfold get_simulation_data_by_step.
  destruct history as [|d0 history]; [reflexivity|].
  set (h := d0 :: history). assert (Hne : h <> []) by discriminate.
  clearbody h. clear d0 history.
  assert (Hfind :
            match List.find (fun data => sd_step data =? step_number) h with
            | Some data =>
                exists before after,
                  h = before ++ data :: after
                  /\ sd_step data = step_number
                  /\ Forall (fun d => sd_step d <> step_number) before
            | None => Forall (fun d => sd_step d <> step_number) h
            end).
  { clear Hne. induction h as [|d h IH]; cbn; [constructor|].
    destruct (Z.eqb_spec (sd_step d) step_number) as [Heq|Hneq].
    - exists [], h. auto.
    - destruct (List.find _ h) as [data|].
      + destruct IH as (before & after & -> & Hstep & Hbefore).
        exists (d :: before), after. auto.
      + now constructor. }
  destruct (List.find _ h) as [data|]; auto.
Qed.


(** ** The reports of agents2.py against the service *)

(** X25. With a positive capacity the colour of a container in the live view
    is never orange, the colour of overflow: an overflowing container is
    critical, and the critical test comes first.  The colour is red exactly
    from 90% of the capacity and green below. *)
Theorem container_colour_never_orange (c : TrashContainerAgent) :
  0 < c_capacity c ->
  container_colour c <> Orange
  /\ (container_colour c = Red <-> 9 * c_capacity c <= 10 * current_fill c)
  /\ (container_colour c = Green <-> 10 * current_fill c < 9 * c_capacity c).
Proof.
  intros Hcap. unfold container_colour.
  rewrite is_critical_spec. unfold is_overflowing.
  destruct (Z.leb_spec (9 * c_capacity c) (10 * current_fill c)),
    (Z.leb_spec (c_capacity c) (current_fill c));
    repeat split; intros; try discriminate; lia.
Qed.

Lemma container_colour_never_orange_witness :
  container_colour (mkContainer (1, 1) 30 45 0) = Red.
Proof.
  destruct (container_colour_never_orange (mkContainer (1, 1) 30 45 0))
    as (_ & Hred & _); [cbn; lia|].
  apply Hred. cbn. lia.
Defined.

Lemma report_counts (limit : Z) (m : list TrashContainerAgent) :
  0 < limit ->
  Forall (fun c => c_capacity c = limit) m ->
  forall n, foldl (fun n c =>
                     match report_status limit c with
                     | Desbordado | Critico => n + 1
                     | Medio | Ok => n
                     end) n m
            = n + Z.of_nat (length (List.filter is_critical m)).
Proof.
  intros Hlimit. induction 1 as [|c m Hc Hm IH]; intros n; cbn [foldl].
  - cbn. lia.
  - rewrite IH. cbn [List.filter]. unfold report_status.
    rewrite is_critical_spec, !scaled_threshold, Hc.
    destruct (Z.leb_spec limit (current_fill c)),
      (Z.leb_spec (9 * limit) (10 * current_fill c)),
      (Z.leb_spec (7 * limit) (10 * current_fill c)); cbn [length]; lia.
Qed.

(** X26. The final report of [agents2.py] and the service classify alike:
    for a container whose capacity is the configured limit, the label of the
    report is the status [get_container_status] gives; and when every
    container has the (positive) configured limit as capacity, the number of
    containers the report counts as critical is the number of positions
    [get_critical_containers] reports. *)
Theorem report_agrees_with_service (limit : Z) (m : list TrashContainerAgent) :
  0 < limit ->
  Forall (fun c => c_capacity c = limit) m ->
  Forall (fun c =>
            match report_status limit c, get_container_status c with
            | Desbordado, overflowing | Critico, critical
            | Medio, medium | Ok, normal => True
            | _, _ => False
            end) m
  /\ contenedores_criticos limit m
     = Z.of_nat (length (get_critical_containers m)).
Proof.
  intros Hlimit Hm. split.
  - eapply Forall_impl; [exact Hm|]. cbn. intros c Hc.
    unfold report_status, get_container_status, is_overflowing, is_critical.
    rewrite Hc.
    destruct (limit <=? current_fill c); [exact I|].
    destruct (Qc_leb (decimal 9 10 * of_int limit) (of_int (current_fill c)));
      [exact I|].
    destruct (Qc_leb (decimal 7 10 * of_int limit) (of_int (current_fill c)));
      exact I.
  - unfold contenedores_criticos, get_critical_containers.
    rewrite (report_counts limit m Hlimit Hm 0), length_map. lia.
Qed.

Lemma report_agrees_with_service_witness :
  let m := [mkContainer (1, 1) 30 31 0; mkContainer (6, 1) 30 28 0;
            mkContainer (2, 5) 30 22 0; mkContainer (5, 6) 30 3 0] in
  contenedores_criticos 30 m = Z.of_nat (length (get_critical_containers m)).
Proof.
  intros m. destruct (report_agrees_with_service 30 m) as [_ H].
  - lia.
  - repeat constructor.
  - exact H.
Defined.

(** ** api_server.convert_position_to_3d *)

Lemma scaled_coordinate (x : Z) :
  (this (of_int x * decimal 5 1)%Qc == inject_Z (5 * x))%Q.
Proof.
  unfold of_int, decimal, Qcmult. cbn [this Q2Qc]. rewrite !Qred_correct.
  unfold Qeq, Qmult, inject_Z. cbn. lia.
Qed.

Lemma scaled_coordinate_inj (x x' : Z) :
  (of_int x * decimal 5 1)%Qc = (of_int x' * decimal 5 1)%Qc -> x = x'.
Proof.
  intros H.
  assert (Hq : (inject_Z (5 * x) == inject_Z (5 * x'))%Q)
    by (rewrite <- !scaled_coordinate, H; reflexivity).
  unfold Qeq, inject_Z in Hq. cbn in Hq. lia.
Qed.

(** X27. The conversion to 3D never merges two cells: agents at different
    grid positions get different coordinates, whatever their kinds.  The
    height is 0.5 for a truck and 0 for anything else, so a truck and a
    container on the same cell differ by their height only. *)
Theorem convert_position_to_3d_injective (p p' : pos) (k k' : string) :
  (convert_position_to_3d p k = convert_position_to_3d p' k' -> p = p')
  /\ py (convert_position_to_3d p "truck") = decimal 5 10
  /\ (k <> "truck"%string -> py (convert_position_to_3d p k) = decimal 0 1)
  /\ px (convert_position_to_3d p "truck")
     = px (convert_position_to_3d p "container")
  /\ pz (convert_position_to_3d p "truck")
     = pz (convert_position_to_3d p "container").
Proof.
  destruct p as [x y], p' as [x' y']. unfold convert_position_to_3d.
  repeat split.
  - intros H. pose proof (f_equal px H) as Hx. pose proof (f_equal pz H) as Hz.
    cbn [px pz] in Hx, Hz.
    apply scaled_coordinate_inj in Hx, Hz. congruence.
  - intros Hk. cbn. apply String.eqb_neq in Hk. now rewrite Hk.
Qed.

(** ** The truck status against binary64 *)

Lemma status_agree_spec (n : nat) (cap load : Z) :
  status_agree n = true ->
  0 < cap <= Z.of_nat n -> 0 <= load <= cap ->
  full64 cap load = (90 * cap <=? 100 * load)
  /\ half64 cap load = (50 * cap <=? 100 * load).
Proof.
  unfold status_agree. intros H Hcap Hload.
  rewrite List.forallb_forall in H.
  specialize (H (Z.to_nat cap - 1)%nat). cbv beta in H.
  rewrite List.forallb_forall in H.
  specialize (fun H1 H2 => H H1 (Z.to_nat load) H2).
  cbv zeta in H.
  replace (Z.of_nat (S (Z.to_nat cap - 1))) with cap in H by lia.
  rewrite Z2Nat.id in H by lia.
  assert (Hb : Bool.eqb (full64 cap load) (90 * cap <=? 100 * load)
               && Bool.eqb (half64 cap load) (50 * cap <=? 100 * load)
               = true)
    by (apply H; apply in_seq; lia).
  apply andb_prop in Hb as [H1 H2].
  apply Bool.eqb_prop in H1, H2. auto.
Qed.

Lemma status_agree_400 : status_agree 400 = true.
Proof. vm_compute. reflexivity. Qed.

(** For every capacity from 1 to 400 and every load from 0 to the capacity,
    the two percentage tests of [get_truck_status] give in binary64 what they
    give on the rationals. *)
Lemma binary64_status (t : TrashTruckAgent) :
  0 < capacity t <= 400 -> 0 <= load t <= capacity t ->
  percentage (load t) (capacity t)
  = Some (of_int (load t) / of_int (capacity t) * of_int 100)%Qc
  /\ full64 (capacity t) (load t)
     = Qc_leb (of_int 90)
         (of_int (load t) / of_int (capacity t) * of_int 100)%Qc
  /\ half64 (capacity t) (load t)
     = Qc_leb (of_int 50)
         (of_int (load t) / of_int (capacity t) * of_int 100)%Qc.
Proof.
  intros Hcap Hload. rewrite !percentage_ge by lia.
  split.
  - unfold percentage. destruct (Z.eqb_spec (capacity t) 0); [lia|reflexivity].
  - apply (status_agree_spec 400 _ _ status_agree_400); lia.
Qed.

(** ** A whole run *)

(** X28. A run never raises on tables of the shape [update_q] creates: from
    a [setup] with no file of identity 0, or with one holding such a table,
    any number of steps returns, whatever the random draws, and the trucks
    end with tables of that shape. *)
Theorem simulate_returns (steps : nat) (p : Parameters) (fs : gmap Z file)
    (fill : nat -> Z) :
  (forall q eps runs, fs !! 0 = Some (Pickled q eps runs) -> wf_q_table q) ->
  forall (cdraw : nat -> nat -> Qc * Z) (tdraw : nat -> nat -> Qc * action),
  exists e',
    simulate steps p cdraw tdraw (setup p fs fill) = Some e'
    /\ Forall (fun t => wf_q_table (q_table t)) (trucks e').
Proof.
  intros Hfs. pose proof (setup_wf p fs fill Hfs) as Hwf.
  generalize dependent (setup p fs fill). clear Hfs.
  induction steps as [|k IH]; intros e Hwf cdraw tdraw; cbn.
  - eauto.
  - destruct (model_step_returns p (cdraw 0%nat) (tdraw 0%nat) e Hwf)
      as (e1 & -> & Hwf1). cbn. now apply IH.
Qed.

Lemma simulate_returns_witness :
  exists e',
    simulate 3 parameters (fun _ _ => (decimal 1 10, 3))
      (fun _ _ => (decimal 1 2, Up)) (setup parameters ∅ (fun _ => 12))
    = Some e'
    /\ Forall (fun t => wf_q_table (q_table t)) (trucks e').
Proof.
  apply (simulate_returns 3 parameters ∅ (fun _ => 12)).
  intros q eps runs H. rewrite lookup_empty in H. discriminate.
Defined.
